(** * gst-plugins-gles: the shader loader of the GLES video sink (src/shader.c)

    A shallow embedding of [shader.c].  The C functions become computations
    in a state-and-fault monad over a [World] that holds the OpenGL ES 2.0
    object store, the sticky error flag and the chronological trace of every
    call that leaves the translation unit (GL, GLib/GIO, libc, logging).
    Whatever the driver and the file system decide on their own is supplied
    by a [Driver] record and a [FileSystem] function, and the data model of
    the build by a [DataModel]; the theorems quantify over all three. *)

From Stdlib Require Import ZArith Lia List.
From Stdlib.Strings Require Import String Ascii Byte.
From stdpp Require Import base option list gmap strings.

Local Open Scope string_scope.
Local Open Scope Z_scope.
Local Open Scope list_scope.

(** ** Constants of the platform headers *)

Module GL.
(** Values of <GLES2/gl2.h>. *)
Definition GL_NO_ERROR : Z := 0.
Definition GL_INVALID_ENUM : Z := 0x0500.
Definition GL_INVALID_VALUE : Z := 0x0501.
Definition GL_INVALID_OPERATION : Z := 0x0502.
Definition GL_OUT_OF_MEMORY : Z := 0x0505.
Definition GL_EXTENSIONS : Z := 0x1F03.
Definition GL_FRAGMENT_SHADER : Z := 0x8B30.
Definition GL_VERTEX_SHADER : Z := 0x8B31.
Definition GL_COMPILE_STATUS : Z := 0x8B81.
Definition GL_LINK_STATUS : Z := 0x8B82.
Definition GL_INFO_LOG_LENGTH : Z := 0x8B84.
(** The smallest value an implementation may give GL_MAX_VERTEX_ATTRIBS. *)
Definition MIN_MAX_VERTEX_ATTRIBS : Z := 8.
End GL.
Export GL.

(** shader.c, line 35. *)
Definition GL_NVIDIA_PLATFORM_BINARY_NV : Z := 0x890B.

(** <errno.h> on Linux. *)
Definition ENOMEM : Z := 12.
Definition EINVAL : Z := 22.

(** shader.c, lines 49-52. *)
Definition SHADER_EXT_BINARY : string := ".glsh".
Definition SHADER_EXT_SOURCE : string := ".glsl".
Definition VERTEX_SHADER_BASENAME : string := "vertex".

(** The value [DATA_DIR] has when the build does not define it
    (shader.c, lines 45-47).  The functions below take the directory as a
    section variable, since the build may override it. *)
Definition DEFAULT_DATA_DIR : string := "/usr/share/gst-plugins-gles/shaders".

(** shader.c, lines 40-43. *)
Definition shader_basenames : list string :=
  [ "deint_linear" (* SHADER_DEINT_LINEAR *);
    "copy"         (* SHADER_COPY, simple linear scaled copy shader *) ].

(** Modelled from the spec: shader.h, which declares the enumeration
    [GstGLESShaderTypes], is not among the sources.  The comments in the
    table [shader_basenames] give the order of its two enumerators, and the
    spec names the two kinds DeintLinear and Copy; a C enumerator is an
    [int], so the kind is carried as a [Z]. *)
Definition SHADER_DEINT_LINEAR : Z := 0.
Definition SHADER_COPY : Z := 1.

(** Modelled from the spec: shader.h, which declares [GstGLESShader], is
    not among the sources.  These are the five fields shader.c reads and
    writes: three GLuint object names and two GLint attribute locations. *)
Record GstGLESShader : Type := mkShader {
  program : Z;
  vertex_shader : Z;
  fragment_shader : Z;
  position_loc : Z;
  texcoord_loc : Z
}.

Definition set_program (v : Z) (s : GstGLESShader) : GstGLESShader :=
  mkShader v (vertex_shader s) (fragment_shader s) (position_loc s) (texcoord_loc s).
Definition set_vertex_shader (v : Z) (s : GstGLESShader) : GstGLESShader :=
  mkShader (program s) v (fragment_shader s) (position_loc s) (texcoord_loc s).
Definition set_fragment_shader (v : Z) (s : GstGLESShader) : GstGLESShader :=
  mkShader (program s) (vertex_shader s) v (position_loc s) (texcoord_loc s).
Definition set_position_loc (v : Z) (s : GstGLESShader) : GstGLESShader :=
  mkShader (program s) (vertex_shader s) (fragment_shader s) v (texcoord_loc s).
Definition set_texcoord_loc (v : Z) (s : GstGLESShader) : GstGLESShader :=
  mkShader (program s) (vertex_shader s) (fragment_shader s) (position_loc s) v.

(** ** Machine integers and C strings *)

(** The data model the sink is built for.  GLint and GLsizei are 32 bits
    wide in both; [gsize] is as wide as a pointer, 32 bits under ILP32 and
    64 bits under LP64.  Neither <glib.h> nor the build configuration is
    among the sources, so the data model is a parameter of the loader. *)
Inductive DataModel : Type := ILP32 | LP64.

(** The value a 32-bit signed object (GLint, GLsizei) holds when its
    bytes are those of the low 32 bits of a size: these bits read as two's
    complement.  shader.c passes a GLint for a size twice: g_file_load_contents
    stores the length of a binary through [(gsize* )&length], where [length]
    is a GLsizei, and glShaderSource reads the length of a source through
    [(const GLint* )&src_len], where [src_len] is a gsize. *)
Definition to_int32 (z : Z) : Z := (z + 2 ^ 31) mod 2 ^ 32 - 2 ^ 31.

(** [strlen] on a buffer whose terminating NUL follows the listed bytes:
    the number of bytes before the first NUL. *)
Fixpoint strlen (buf : list byte) : nat :=
  match buf with
  | [] => 0%nat
  | b :: rest => if Byte.eqb b x00 then 0%nat else S (strlen rest)
  end.

(** [strstr]: offset of the first occurrence of [needle], if any. *)
Fixpoint strstr (haystack needle : string) : option nat :=
  if String.prefix needle haystack then Some 0%nat
  else match haystack with
       | EmptyString => None
       | String _ rest => S <$> strstr rest needle
       end.

(** GLib's [g_strstr_len]: a negative length searches the whole string,
    otherwise the match has to lie within the first [haystack_len] bytes. *)
Definition g_strstr_len (haystack : string) (haystack_len : Z) (needle : string)
  : option nat :=
  if haystack_len <? 0 then strstr haystack needle
  else strstr (String.substring 0 (Z.to_nat haystack_len) haystack) needle.

(** [g_strdup_printf ("%s/%s%s", dir, base, ext)], the only format used. *)
Definition g_strdup_printf (dir base ext : string) : string :=
  dir +:+ "/" +:+ base +:+ ext.

(** ** Calls that leave the translation unit *)

Inductive LogLevel : Type := LOG_ERROR | LOG_WARNING | LOG_DEBUG.

Inductive LogArg : Type :=
| ArgStr (s : string)
| ArgInt (z : Z).

(** What a pointer handed to [g_free] points to. *)
Inductive Mem : Type :=
| MemNull
| MemBytes (contents : list byte)
| MemStr (s : string).

Inductive Event : Type :=
| EGetString (name : Z)
| ECreateShader (type : Z) (name : Z)
| EDeleteShader (shader : Z)
| EShaderBinary (shader : Z) (format : Z) (binary : list byte) (length : Z)
| EShaderSource (shader : Z) (src : list byte) (length : Z)
| ECompileShader (shader : Z)
| EGetShaderiv (shader : Z) (pname : Z) (value : option Z)
| EGetShaderInfoLog (shader : Z) (bufsize : Z) (log : option string)
| EGetError (flag : Z)
| ECreateProgram (name : Z)
| EAttachShader (prog : Z) (shader : Z)
| EBindAttribLocation (prog : Z) (index : Z) (name : string)
| ELinkProgram (prog : Z)
| EGetProgramiv (prog : Z) (pname : Z) (value : option Z)
| EGetProgramInfoLog (prog : Z) (bufsize : Z) (log : option string)
| EDeleteProgram (prog : Z)
| EUseProgram (prog : Z)
| EGetAttribLocation (prog : Z) (name : string) (location : Z)
| EClearColor (r g b a : Z)
| EFileNew (path : string)
| EFileLoadContents (path : string)
| EObjectUnref (path : string)
| EGFree (p : Mem)
| EMalloc (size : Z)
| EFree
| ELog (level : LogLevel) (format : string) (args : list LogArg).

(** ** The OpenGL ES 2.0 object model

    Only what shader.c can observe.  The stores hold the objects the
    application has created and not yet handed to glDelete*; the deferred
    deletion of an object that is still attached or in use is inside the
    driver and is not tracked. *)

Record shader_obj : Type := mkShaderObj {
  sh_type : Z;
  sh_source : list byte;
  sh_compiled : bool;
  sh_info_len : Z;
  sh_info_log : string
}.

Record program_obj : Type := mkProgramObj {
  pr_attached : list Z;
  pr_bound : list (string * Z);
  pr_linked : bool;
  pr_active : list (string * Z);
  pr_info_len : Z;
  pr_info_log : string
}.

Record World : Type := mkWorld {
  trace : list Event;
  shaders : gmap Z shader_obj;
  programs : gmap Z program_obj;
  gl_error : Z;
  current_program : Z
}.

Definition initial_world : World := mkWorld [] ∅ ∅ GL_NO_ERROR 0.

Record CompileResult : Type := mkCompileResult {
  cr_status : bool;
  cr_info_len : Z;
  cr_info_log : string
}.

Record LinkResult : Type := mkLinkResult {
  lr_status : bool;
  lr_info_len : Z;
  lr_info_log : string;
  (** active attributes, each with the location the linker picks for it
      when the application has not bound it *)
  lr_attribs : list (string * Z)
}.

(** The decisions of the GL implementation.  Where a decision may differ
    from call to call it is a function of the calls made so far. *)
Record Driver : Type := mkDriver {
  drv_string : Z -> string;
  (** name proposed for a new object; 0 when the driver is out of resources *)
  drv_new_name : list Event -> Z;
  (** error raised for a binary, by shader type, format and bytes *)
  drv_binary : Z -> Z -> list byte -> Z;
  drv_compile : Z -> list byte -> CompileResult;
  (** error raised while attaching to valid objects (GL_OUT_OF_MEMORY may
      be generated by any command) *)
  drv_attach : list Event -> Z;
  drv_link : list shader_obj -> list (string * Z) -> LinkResult;
  drv_max_vertex_attribs : Z
}.

Inductive ReadResult : Type :=
| ReadOk (contents : list byte)
| ReadErr (message : string).

Definition FileSystem : Type := string -> ReadResult.

(** ** The monad: state passing over [World], with faults

    [Fault] stands for undefined behaviour of the C program: an array read
    out of bounds, or the use of a variable that was never written. *)

Inductive Outcome (A : Type) : Type :=
| Done (a : A) (w : World)
| Fault (w : World).
Arguments Done {A} a w.
Arguments Fault {A} w.

Definition M (A : Type) : Type := World -> Outcome A.

#[global] Instance M_ret : MRet M := fun A a w => Done a w.
#[global] Instance M_bind : MBind M := fun A B k m w =>
  match m w with
  | Done a w' => k a w'
  | Fault w' => Fault w'
  end.

Definition fault {A : Type} : M A := fun w => Fault w.
Definition get_world : M World := fun w => Done w w.
Definition modify (f : World -> World) : M unit := fun w => Done tt (f w).

Definition add_event (e : Event) (w : World) : World :=
  mkWorld (trace w ++ [e]) (shaders w) (programs w) (gl_error w) (current_program w).
Definition with_shaders (m : gmap Z shader_obj) (w : World) : World :=
  mkWorld (trace w) m (programs w) (gl_error w) (current_program w).
Definition with_programs (m : gmap Z program_obj) (w : World) : World :=
  mkWorld (trace w) (shaders w) m (gl_error w) (current_program w).
Definition with_error (e : Z) (w : World) : World :=
  mkWorld (trace w) (shaders w) (programs w) e (current_program w).
Definition with_current (p : Z) (w : World) : World :=
  mkWorld (trace w) (shaders w) (programs w) (gl_error w) p.

(** The error flag keeps the first error until glGetError reads it. *)
Definition record_error (e : Z) (w : World) : World :=
  if gl_error w =? GL_NO_ERROR then with_error e w else w.

Definition emit (e : Event) : M unit := modify (add_event e).

(** A name is free when it is not 0 and names no live object; shader and
    program objects share one name space. *)
Definition name_free (n : Z) (w : World) : bool :=
  negb (n =? 0) && bool_decide (shaders w !! n = None)
                && bool_decide (programs w !! n = None).

Definition lookup_attrib (name : string) (l : list (string * Z)) : option Z :=
  snd <$> List.find (fun '(n, _) => String.eqb n name) l.

(** A newline, for the format strings that end in one. *)
Definition nl : string := String "010"%char EmptyString.

Section ShaderLoader.

Variable abi : DataModel.
Variable drv : Driver.
Variable fs : FileSystem.
(** The macro [DATA_DIR] (shader.c, lines 45-47). *)
Variable DATA_DIR : string.

(** *** OpenGL ES 2.0 entry points *)

Definition glGetString (name : Z) : M string :=
  emit (EGetString name);;
  mret (drv_string drv name).

Definition glGetError : M Z :=
  w ← get_world;
  emit (EGetError (gl_error w));;
  modify (with_error GL_NO_ERROR);;
  mret (gl_error w).

Definition new_shader (type : Z) : shader_obj := mkShaderObj type [] false 0 EmptyString.
Definition new_program : program_obj := mkProgramObj [] [] false [] 0 EmptyString.

Definition glCreateShader (type : Z) : M Z :=
  w ← get_world;
  let n := drv_new_name drv (trace w) in
  if negb ((type =? GL_VERTEX_SHADER) || (type =? GL_FRAGMENT_SHADER)) then
    emit (ECreateShader type 0);;
    modify (record_error GL_INVALID_ENUM);;
    mret 0
  else if name_free n w then
    emit (ECreateShader type n);;
    modify (fun w => with_shaders (<[n := new_shader type]> (shaders w)) w);;
    mret n
  else
    emit (ECreateShader type 0);;
    mret 0.

Definition glDeleteShader (shader : Z) : M unit :=
  emit (EDeleteShader shader);;
  if shader =? 0 then mret tt
  else modify (fun w =>
         match shaders w !! shader with
         | Some _ => with_shaders (delete shader (shaders w)) w
         | None => record_error GL_INVALID_VALUE w
         end).

(** [glShaderBinary (1, &shader, binaryformat, binary, length)]. *)
Definition glShaderBinary (shader binaryformat : Z) (binary : list byte)
    (length : Z) : M unit :=
  emit (EShaderBinary shader binaryformat binary length);;
  modify (fun w =>
    match shaders w !! shader with
    | None => record_error GL_INVALID_VALUE w
    | Some o =>
        if length <? 0 then record_error GL_INVALID_VALUE w
        else
          let e := drv_binary drv (sh_type o) binaryformat
                     (take (Z.to_nat length) binary) in
          if e =? GL_NO_ERROR then
            with_shaders
              (<[shader := mkShaderObj (sh_type o) (sh_source o) true
                                       (sh_info_len o) (sh_info_log o)]>
                 (shaders w)) w
          else record_error e w
    end).

(** [glShaderSource (shader, 1, &src, &length)]: a negative length makes
    the driver read up to the terminating NUL. *)
Definition glShaderSource (shader : Z) (src : list byte) (length : Z) : M unit :=
  emit (EShaderSource shader src length);;
  modify (fun w =>
    match shaders w !! shader with
    | None => record_error GL_INVALID_VALUE w
    | Some o =>
        let text := if length <? 0 then take (strlen src) src
                    else take (Z.to_nat length) src in
        with_shaders
          (<[shader := mkShaderObj (sh_type o) text (sh_compiled o)
                                   (sh_info_len o) (sh_info_log o)]>
             (shaders w)) w
    end).

Definition glCompileShader (shader : Z) : M unit :=
  emit (ECompileShader shader);;
  modify (fun w =>
    match shaders w !! shader with
    | None => record_error GL_INVALID_VALUE w
    | Some o =>
        let r := drv_compile drv (sh_type o) (sh_source o) in
        with_shaders
          (<[shader := mkShaderObj (sh_type o) (sh_source o) (cr_status r)
                                   (cr_info_len r) (cr_info_log r)]>
             (shaders w)) w
    end).

(** The query functions write through an out-pointer only when they
    succeed; [None] is "nothing written". *)
Definition shader_param (o : shader_obj) (pname : Z) : option Z :=
  if pname =? GL_COMPILE_STATUS then Some (if sh_compiled o then 1 else 0)
  else if pname =? GL_INFO_LOG_LENGTH then Some (sh_info_len o)
  else None.

Definition glGetShaderiv (shader pname : Z) : M (option Z) :=
  w ← get_world;
  match shaders w !! shader with
  | None =>
      emit (EGetShaderiv shader pname None);;
      modify (record_error GL_INVALID_VALUE);;
      mret None
  | Some o =>
      emit (EGetShaderiv shader pname (shader_param o pname));;
      match shader_param o pname with
      | Some v => mret (Some v)
      | None => modify (record_error GL_INVALID_ENUM);; mret None
      end
  end.

(** The log is cut to fit the buffer, terminator included. *)
Definition glGetShaderInfoLog (shader bufsize : Z) : M (option string) :=
  w ← get_world;
  match shaders w !! shader with
  | None =>
      emit (EGetShaderInfoLog shader bufsize None);;
      modify (record_error GL_INVALID_VALUE);;
      mret None
  | Some o =>
      let log := String.substring 0 (Z.to_nat (bufsize - 1)) (sh_info_log o) in
      emit (EGetShaderInfoLog shader bufsize (Some log));;
      mret (Some log)
  end.

Definition glCreateProgram : M Z :=
  w ← get_world;
  let n := drv_new_name drv (trace w) in
  if name_free n w then
    emit (ECreateProgram n);;
    modify (fun w => with_programs (<[n := new_program]> (programs w)) w);;
    mret n
  else
    emit (ECreateProgram 0);;
    mret 0.

Definition same_type_attached (w : World) (po : program_obj) (so : shader_obj)
  : bool :=
  existsb (fun s => match shaders w !! s with
                    | Some o => sh_type o =? sh_type so
                    | None => false
                    end) (pr_attached po).

Definition glAttachShader (prog shader : Z) : M unit :=
  emit (EAttachShader prog shader);;
  modify (fun w =>
    match programs w !! prog, shaders w !! shader with
    | Some po, Some so =>
        if bool_decide (shader ∈ pr_attached po) || same_type_attached w po so
        then record_error GL_INVALID_OPERATION w
        else
          let e := drv_attach drv (trace w) in
          if e =? GL_NO_ERROR then
            with_programs
              (<[prog := mkProgramObj (shader :: pr_attached po) (pr_bound po)
                                      (pr_linked po) (pr_active po)
                                      (pr_info_len po) (pr_info_log po)]>
                 (programs w)) w
          else record_error e w
    | _, _ => record_error GL_INVALID_VALUE w
    end).

(** The binding takes effect at the next link; the latest binding of a
    name is the one in front. *)
Definition glBindAttribLocation (prog index : Z) (name : string) : M unit :=
  emit (EBindAttribLocation prog index name);;
  modify (fun w =>
    match programs w !! prog with
    | None => record_error GL_INVALID_VALUE w
    | Some po =>
        if (index <? 0)
           || (Z.max MIN_MAX_VERTEX_ATTRIBS (drv_max_vertex_attribs drv) <=? index)
        then record_error GL_INVALID_VALUE w
        else if String.prefix "gl_" name then record_error GL_INVALID_OPERATION w
        else
          with_programs
            (<[prog := mkProgramObj (pr_attached po) ((name, index) :: pr_bound po)
                                    (pr_linked po) (pr_active po)
                                    (pr_info_len po) (pr_info_log po)]>
               (programs w)) w
    end).

(** An active attribute gets the location bound to its name, or else the
    one the linker picked. *)
Definition locate (bound : list (string * Z)) (a : string * Z) : string * Z :=
  (fst a, default (snd a) (lookup_attrib (fst a) bound)).

Definition glLinkProgram (prog : Z) : M unit :=
  emit (ELinkProgram prog);;
  modify (fun w =>
    match programs w !! prog with
    | None => record_error GL_INVALID_VALUE w
    | Some po =>
        let objs := omap (fun s => shaders w !! s) (pr_attached po) in
        let r := drv_link drv objs (pr_bound po) in
        with_programs
          (<[prog := mkProgramObj (pr_attached po) (pr_bound po) (lr_status r)
                       (if lr_status r
                        then List.map (locate (pr_bound po)) (lr_attribs r)
                        else [])
                       (lr_info_len r) (lr_info_log r)]>
             (programs w)) w
    end).

Definition program_param (po : program_obj) (pname : Z) : option Z :=
  if pname =? GL_LINK_STATUS then Some (if pr_linked po then 1 else 0)
  else if pname =? GL_INFO_LOG_LENGTH then Some (pr_info_len po)
  else None.

Definition glGetProgramiv (prog pname : Z) : M (option Z) :=
  w ← get_world;
  match programs w !! prog with
  | None =>
      emit (EGetProgramiv prog pname None);;
      modify (record_error GL_INVALID_VALUE);;
      mret None
  | Some po =>
      emit (EGetProgramiv prog pname (program_param po pname));;
      match program_param po pname with
      | Some v => mret (Some v)
      | None => modify (record_error GL_INVALID_ENUM);; mret None
      end
  end.

Definition glGetProgramInfoLog (prog bufsize : Z) : M (option string) :=
  w ← get_world;
  match programs w !! prog with
  | None =>
      emit (EGetProgramInfoLog prog bufsize None);;
      modify (record_error GL_INVALID_VALUE);;
      mret None
  | Some po =>
      let log := String.substring 0 (Z.to_nat (bufsize - 1)) (pr_info_log po) in
      emit (EGetProgramInfoLog prog bufsize (Some log));;
      mret (Some log)
  end.

Definition glDeleteProgram (prog : Z) : M unit :=
  emit (EDeleteProgram prog);;
  if prog =? 0 then mret tt
  else modify (fun w =>
         match programs w !! prog with
         | Some _ => with_programs (delete prog (programs w)) w
         | None => record_error GL_INVALID_VALUE w
         end).

Definition glUseProgram (prog : Z) : M unit :=
  emit (EUseProgram prog);;
  if prog =? 0 then modify (with_current 0)
  else modify (fun w =>
         match programs w !! prog with
         | None => record_error GL_INVALID_VALUE w
         | Some po =>
             if pr_linked po then with_current prog w
             else record_error GL_INVALID_OPERATION w
         end).

(** The location of an active attribute of a linked program; -1 when the
    name is not an active attribute. *)
Definition attrib_location (w : World) (prog : Z) (name : string) : option Z :=
  match programs w !! prog with
  | Some po =>
      if pr_linked po then
        Some (if String.prefix "gl_" name then -1
              else default (-1) (lookup_attrib name (pr_active po)))
      else None
  | None => None
  end.

Definition glGetAttribLocation (prog : Z) (name : string) : M Z :=
  w ← get_world;
  match attrib_location w prog name with
  | Some loc => emit (EGetAttribLocation prog name loc);; mret loc
  | None =>
      emit (EGetAttribLocation prog name (-1));;
      modify (record_error GL_INVALID_OPERATION);;
      mret (-1)
  end.

(** [glClearColor]; the components that occur are 0.0 and 1.0. *)
Definition glClearColor (r g b a : Z) : M unit := emit (EClearColor r g b a).

(** *** GLib, GIO, libc and the GStreamer log *)

(** A GFile is known by its path. *)
Definition g_file_new_for_path (path : string) : M string :=
  emit (EFileNew path);; mret path.

Definition g_file_load_contents (file : string) : M ReadResult :=
  emit (EFileLoadContents file);; mret (fs file).

Definition g_object_unref (file : string) : M unit := emit (EObjectUnref file).
Definition g_free (p : Mem) : M unit := emit (EGFree p).
Definition malloc (size : Z) : M unit := emit (EMalloc size).
Definition free : M unit := emit EFree.

Definition GST_ERROR_OBJECT (format : string) (args : list LogArg) : M unit :=
  emit (ELog LOG_ERROR format args).
Definition GST_WARNING_OBJECT (format : string) (args : list LogArg) : M unit :=
  emit (ELog LOG_WARNING format args).
Definition GST_DEBUG_OBJECT (format : string) (args : list LogArg) : M unit :=
  emit (ELog LOG_DEBUG format args).

(** *** shader.c *)

(** shader.c, lines 54-58. *)
Definition gl_extension_available (extension : string) : M bool :=
  gl_extensions ← glGetString GL_EXTENSIONS;
  mret (match g_strstr_len gl_extensions (-1) extension with
        | Some _ => true
        | None => false
        end).

(** The label [cleanup] of [gl_load_binary_shader] (lines 103-106). *)
Definition binary_cleanup (binary : Mem) (file : string) (shader : Z) : M Z :=
  g_free binary;;
  g_object_unref file;;
  mret shader.

(** shader.c, lines 60-107.  [length] is a GLsizei, four bytes, and
    g_file_load_contents, when it has read the file, stores the length
    through the [gsize] pointer it was given, [(gsize* )&length].  Under
    ILP32 that fills the four bytes of [length].  Under LP64 it is a
    store of eight bytes into an object of four: the behaviour is
    undefined from there on, which is a fault.  When the file cannot be
    read nothing is stored, and no GError either, since the error
    argument is NULL. *)
Definition gl_load_binary_shader (filename : string) (type : Z) : M Z :=
  avail ← gl_extension_available "GL_NV_platform_binary";
  if negb avail then
    GST_WARNING_OBJECT
      "Binary shaders are not supported, falling back to source shaders." [];;
    mret 0
  else
    file ← g_file_new_for_path filename;
    shader ← glCreateShader type;
    if shader =? 0 then
      GST_ERROR_OBJECT "Could not create shader object" [];;
      binary_cleanup MemNull file shader
    else
      r ← g_file_load_contents file;
      match r with
      | ReadErr _ =>
          GST_ERROR_OBJECT "Could not read binary shader from %s" [ArgStr filename];;
          glDeleteShader shader;;
          binary_cleanup MemNull file 0
      | ReadOk binary =>
          match abi with
          | LP64 => fault
          | ILP32 =>
              let length := to_int32 (Z.of_nat (List.length binary)) in
              glShaderBinary shader GL_NVIDIA_PLATFORM_BINARY_NV binary length;;
              err ← glGetError;
              if negb (err =? GL_NO_ERROR) then
                GST_ERROR_OBJECT ("Error loading binary shader: %d" +:+ nl)
                  [ArgInt err];;
                glDeleteShader shader;;
                binary_cleanup (MemBytes binary) file 0
              else binary_cleanup (MemBytes binary) file shader
          end
      end.

(** shader.c, lines 110-174.  The local [GError *err] has no
    initialiser (line 119) and its address is handed to
    g_file_load_contents.  GLib stores an error only where the pointer it
    finds is NULL, so when the file cannot be read it reads the
    indeterminate [err], and lines 132-134 then read [err->message] and
    free [err]: the behaviour is undefined, which is a fault.  When the
    file is read [err] is not touched.  [compiled] has no initialiser
    either, so reading it after a query that wrote nothing is a fault;
    [info_len] starts at 0. *)
Definition gl_load_source_shader (shader_filename : string) (type : Z) : M Z :=
  shader ← glCreateShader type;
  if shader =? 0 then
    GST_ERROR_OBJECT "Could not create shader object" [];;
    mret 0
  else
    shader_file ← g_file_new_for_path shader_filename;
    r ← g_file_load_contents shader_file;
    match r with
    | ReadErr _ => fault
    | ReadOk shader_src =>
        let src_len := Z.of_nat (strlen shader_src) in
        glShaderSource shader shader_src (to_int32 src_len);;
        g_free (MemBytes shader_src);;
        g_object_unref shader_file;;
        glCompileShader shader;;
        compiled ← glGetShaderiv shader GL_COMPILE_STATUS;
        match compiled with
        | None => fault
        | Some compiled =>
            if compiled =? 0 then
              written ← glGetShaderiv shader GL_INFO_LOG_LENGTH;
              let info_len := default 0 written in
              (if 1 <? info_len then
                 malloc info_len;;
                 info_log ← glGetShaderInfoLog shader info_len;
                 match info_log with
                 | None => fault
                 | Some info_log =>
                     GST_ERROR_OBJECT "Failed to compile shader: %s" [ArgStr info_log];;
                     free
                 end
               else mret tt);;
              glDeleteShader shader;;
              mret 0
            else
              GST_DEBUG_OBJECT "Shader compiled succesfully" [];;
              mret shader
        end
    end.

(** shader.c, lines 180-204. *)
Definition gl_load_shader (basename : string) (type : Z) : M Z :=
  let filename := g_strdup_printf DATA_DIR basename SHADER_EXT_BINARY in
  GST_DEBUG_OBJECT "Load binary shader from %s" [ArgStr filename];;
  shader ← gl_load_binary_shader filename type;
  if shader =? 0 then
    g_free (MemStr filename);;
    let filename := g_strdup_printf DATA_DIR basename SHADER_EXT_SOURCE in
    GST_DEBUG_OBJECT "Load source shader from %s" [ArgStr filename];;
    shader ← gl_load_source_shader filename type;
    g_free (MemStr filename);;
    mret shader
  else
    g_free (MemStr filename);;
    mret shader.

(** [shader_basenames[process_type]]: C does not check the index, and a
    read outside the table has no defined value. *)
Definition shader_basename_at (process_type : Z) : option string :=
  if process_type <? 0 then None
  else shader_basenames !! Z.to_nat process_type.

(** shader.c, lines 210-226.  The structure behind the pointer [shader]
    is passed in and handed back. *)
Definition gl_load_shaders (shader : GstGLESShader) (process_type : Z)
  : M (Z * GstGLESShader) :=
  v ← gl_load_shader VERTEX_SHADER_BASENAME GL_VERTEX_SHADER;
  let shader := set_vertex_shader v shader in
  if vertex_shader shader =? 0 then mret (- EINVAL, shader)
  else
    match shader_basename_at process_type with
    | None => fault
    | Some basename =>
        f ← gl_load_shader basename GL_FRAGMENT_SHADER;
        let shader := set_fragment_shader f shader in
        if fragment_shader shader =? 0 then mret (- EINVAL, shader)
        else mret (0, shader)
    end.

(** The diagnostic both attach steps of [gl_init_shader] share. *)
Definition report_attach_error (format : string) (err : Z) : M unit :=
  if negb (err =? GL_NO_ERROR) then GST_ERROR_OBJECT format [ArgInt err]
  else mret tt.

(** shader.c, lines 228-291.  [linked] has no initialiser. *)
Definition gl_init_shader (shader : GstGLESShader) (process_type : Z)
  : M (Z * GstGLESShader) :=
  p ← glCreateProgram;
  let shader := set_program p shader in
  if program shader =? 0 then
    GST_ERROR_OBJECT "Could not create GL program" [];;
    mret (- ENOMEM, shader)
  else
    '(ret, shader) ← gl_load_shaders shader process_type;
    if ret <? 0 then
      GST_ERROR_OBJECT "Could not create GL shaders: %d" [ArgInt ret];;
      mret (ret, shader)
    else
      glAttachShader (program shader) (vertex_shader shader);;
      err ← glGetError;
      report_attach_error
        ("Error while attaching the vertex shader: 0x%04x" +:+ nl) err;;
      glAttachShader (program shader) (fragment_shader shader);;
      err ← glGetError;
      report_attach_error
        ("Error while attaching the fragment shader: 0x%04x" +:+ nl) err;;
      glBindAttribLocation (program shader) 0 "vPosition";;
      glLinkProgram (program shader);;
      linked ← glGetProgramiv (program shader) GL_LINK_STATUS;
      match linked with
      | None => fault
      | Some linked =>
          if linked =? 0 then
            GST_ERROR_OBJECT "Linker failure" [];;
            written ← glGetProgramiv (program shader) GL_INFO_LOG_LENGTH;
            let info_len := default 0 written in
            (if 1 <? info_len then
               malloc info_len;;
               info_log ← glGetProgramInfoLog (program shader) info_len;
               match info_log with
               | None => fault
               | Some info_log =>
                   GST_ERROR_OBJECT "Failed to link GL program: %s" [ArgStr info_log];;
                   free
               end
             else mret tt);;
            glDeleteProgram (program shader);;
            mret (- EINVAL, shader)
          else
            glUseProgram (program shader);;
            pos ← glGetAttribLocation (program shader) "vPosition";
            let shader := set_position_loc pos shader in
            tex ← glGetAttribLocation (program shader) "aTexcoord";
            let shader := set_texcoord_loc tex shader in
            glClearColor 0 0 0 1;;
            mret (0, shader)
      end.

(** shader.c, lines 293-304. *)
Definition gl_delete_shader (shader : GstGLESShader) : M GstGLESShader :=
  glDeleteShader (vertex_shader shader);;
  let shader := set_vertex_shader 0 shader in
  glDeleteShader (fragment_shader shader);;
  let shader := set_fragment_shader 0 shader in
  glDeleteProgram (program shader);;
  let shader := set_program 0 shader in
  mret shader.

End ShaderLoader.

(** * Specification vocabulary *)

(** ** A small program logic for [M] *)

(** [returns m w Q]: run from [w], the computation [m] does not fault and
    its result and final world satisfy [Q]. *)
Definition returns {A : Type} (m : M A) (w : World) (Q : A -> World -> Prop) : Prop :=
  ∃ a w', m w = Done a w' ∧ Q a w'.

Definition outcome_world {A : Type} (o : Outcome A) : World :=
  match o with Done _ w | Fault w => w end.

(** [runs_to m w Q F]: run from [w], the computation [m] either returns a
    result and a world that satisfy [Q], or it faults and then [F] holds:
    [F] is what undefined behaviour needs. *)
Definition runs_to {A : Type} (m : M A) (w : World) (Q : A -> World -> Prop)
    (F : Prop) : Prop :=
  match m w with
  | Done a w' => Q a w'
  | Fault _ => F
  end.

(** What a call leaves of the world: the events it appended and the two
    object stores.  The error flag and the current program are left open. *)
Definition effect (w : World) (evs : list Event) (sh : gmap Z shader_obj)
    (pr : gmap Z program_obj) (w' : World) : Prop :=
  trace w' = trace w ++ evs ∧ shaders w' = sh ∧ programs w' = pr.

(** What loading one stage does to the world: it appends [evs], leaves
    the programs alone, and either leaves the shaders alone (no handle)
    or adds one shader under a name that was free. *)
Definition StageEffect (w : World) (evs : list Event) (s : Z) (w' : World) : Prop :=
  trace w' = trace w ++ evs ∧ programs w' = programs w ∧
  (s = 0 -> shaders w' = shaders w) ∧
  (s ≠ 0 -> shaders w !! s = None ∧ programs w !! s = None ∧
            ∃ o, shaders w' = <[s := o]> (shaders w)).

(** The calls that loading a shader stage can make: none of them is a call
    on a program object. *)
Definition stage_event (e : Event) : bool :=
  match e with
  | ECreateProgram _ | EAttachShader _ _ | EBindAttribLocation _ _ _
  | ELinkProgram _ | EGetProgramiv _ _ _ | EGetProgramInfoLog _ _ _
  | EDeleteProgram _ | EUseProgram _ | EGetAttribLocation _ _ _
  | EClearColor _ _ _ _ => false
  | _ => true
  end.

(** ** The runs of each function, path by path *)

Section Runs.
Variable abi : DataModel.
Variable drv : Driver.
Variable fs : FileSystem.
Variable DATA_DIR : string.

Definition binary_supported : bool :=
  match g_strstr_len (drv_string drv GL_EXTENSIONS) (-1) "GL_NV_platform_binary" with
  | Some _ => true
  | None => false
  end.

(** The calls [gl_load_binary_shader] makes when it returns, with the
    handle it returns.  A run that has read the file is a run under
    ILP32. *)
Inductive BinaryRun (filename : string) (type : Z) : Z -> list Event -> Prop :=
| BinUnsupported :
    binary_supported = false ->
    BinaryRun filename type 0
      [ EGetString GL_EXTENSIONS;
        ELog LOG_WARNING
          "Binary shaders are not supported, falling back to source shaders." [] ]
| BinNoObject :
    binary_supported = true ->
    BinaryRun filename type 0
      [ EGetString GL_EXTENSIONS; EFileNew filename; ECreateShader type 0;
        ELog LOG_ERROR "Could not create shader object" [];
        EGFree MemNull; EObjectUnref filename ]
| BinUnreadable n message :
    binary_supported = true -> n ≠ 0 -> fs filename = ReadErr message ->
    BinaryRun filename type 0
      [ EGetString GL_EXTENSIONS; EFileNew filename; ECreateShader type n;
        EFileLoadContents filename;
        ELog LOG_ERROR "Could not read binary shader from %s" [ArgStr filename];
        EDeleteShader n; EGFree MemNull; EObjectUnref filename ]
| BinRejected n binary err :
    binary_supported = true -> n ≠ 0 -> fs filename = ReadOk binary ->
    abi = ILP32 -> err ≠ GL_NO_ERROR ->
    BinaryRun filename type 0
      [ EGetString GL_EXTENSIONS; EFileNew filename; ECreateShader type n;
        EFileLoadContents filename;
        EShaderBinary n GL_NVIDIA_PLATFORM_BINARY_NV binary
          (to_int32 (Z.of_nat (length binary)));
        EGetError err;
        ELog LOG_ERROR ("Error loading binary shader: %d" +:+ nl) [ArgInt err];
        EDeleteShader n; EGFree (MemBytes binary); EObjectUnref filename ]
| BinLoaded n binary :
    binary_supported = true -> n ≠ 0 -> fs filename = ReadOk binary ->
    abi = ILP32 ->
    0 <= to_int32 (Z.of_nat (length binary)) ->
    drv_binary drv type GL_NVIDIA_PLATFORM_BINARY_NV
      (take (Z.to_nat (to_int32 (Z.of_nat (length binary)))) binary) = GL_NO_ERROR ->
    BinaryRun filename type n
      [ EGetString GL_EXTENSIONS; EFileNew filename; ECreateShader type n;
        EFileLoadContents filename;
        EShaderBinary n GL_NVIDIA_PLATFORM_BINARY_NV binary
          (to_int32 (Z.of_nat (length binary)));
        EGetError GL_NO_ERROR;
        EGFree (MemBytes binary); EObjectUnref filename ].

(** The calls that fetch and report a compile log of length [info_len]. *)
Definition compile_log (n info_len : Z) (log : string) : list Event :=
  if 1 <? info_len then
    [ EMalloc info_len; EGetShaderInfoLog n info_len (Some log);
      ELog LOG_ERROR "Failed to compile shader: %s" [ArgStr log]; EFree ]
  else [].

(** The calls [gl_load_source_shader] makes when it returns: no run
    that returns has failed to read the file. *)
Inductive SourceRun (filename : string) (type : Z) : Z -> list Event -> Prop :=
| SrcNoObject :
    SourceRun filename type 0
      [ ECreateShader type 0; ELog LOG_ERROR "Could not create shader object" [] ]
| SrcRejected n src info_len log :
    n ≠ 0 -> fs filename = ReadOk src ->
    SourceRun filename type 0
      ([ ECreateShader type n; EFileNew filename; EFileLoadContents filename;
         EShaderSource n src (to_int32 (Z.of_nat (strlen src)));
         EGFree (MemBytes src); EObjectUnref filename; ECompileShader n;
         EGetShaderiv n GL_COMPILE_STATUS (Some 0);
         EGetShaderiv n GL_INFO_LOG_LENGTH (Some info_len) ]
       ++ compile_log n info_len log ++ [ EDeleteShader n ])
| SrcCompiled n src :
    n ≠ 0 -> fs filename = ReadOk src ->
    SourceRun filename type n
      [ ECreateShader type n; EFileNew filename; EFileLoadContents filename;
        EShaderSource n src (to_int32 (Z.of_nat (strlen src)));
        EGFree (MemBytes src); EObjectUnref filename; ECompileShader n;
        EGetShaderiv n GL_COMPILE_STATUS (Some 1);
        ELog LOG_DEBUG "Shader compiled succesfully" [] ].

Definition binary_path (basename : string) : string :=
  g_strdup_printf DATA_DIR basename SHADER_EXT_BINARY.
Definition source_path (basename : string) : string :=
  g_strdup_printf DATA_DIR basename SHADER_EXT_SOURCE.

(** What the undefined behaviour of each loader needs: the binary loader
    has to read its file under LP64, the source loader has to fail to
    read its file. *)
Definition binary_undefined (filename : string) : Prop :=
  abi = LP64 ∧ binary_supported = true ∧ ∃ binary, fs filename = ReadOk binary.
Definition source_undefined (filename : string) : Prop :=
  ∃ message, fs filename = ReadErr message.
Definition stage_undefined (basename : string) : Prop :=
  binary_undefined (binary_path basename) ∨ source_undefined (source_path basename).
(** For [gl_load_shaders] there is the read outside the table as well. *)
Definition stages_undefined (process_type : Z) : Prop :=
  stage_undefined VERTEX_SHADER_BASENAME ∨
  match shader_basename_at process_type with
  | Some basename => stage_undefined basename
  | None => True
  end.

(** The calls [gl_load_shader] makes: the binary tier, and the source
    tier when the binary tier gave no handle. *)
Inductive LoadRun (basename : string) (type : Z) : Z -> list Event -> Prop :=
| LoadFromBinary s evs :
    s ≠ 0 -> BinaryRun (binary_path basename) type s evs ->
    LoadRun basename type s
      ([ ELog LOG_DEBUG "Load binary shader from %s" [ArgStr (binary_path basename)] ]
       ++ evs ++ [ EGFree (MemStr (binary_path basename)) ])
| LoadFromSource s evs_bin evs_src :
    BinaryRun (binary_path basename) type 0 evs_bin ->
    SourceRun (source_path basename) type s evs_src ->
    LoadRun basename type s
      ([ ELog LOG_DEBUG "Load binary shader from %s" [ArgStr (binary_path basename)] ]
       ++ evs_bin
       ++ [ EGFree (MemStr (binary_path basename));
            ELog LOG_DEBUG "Load source shader from %s"
                 [ArgStr (source_path basename)] ]
       ++ evs_src ++ [ EGFree (MemStr (source_path basename)) ]).

(** The runs of [gl_load_shaders] that return: the code, the structure
    and the world it hands back. *)
Inductive LoadShadersRun (shader : GstGLESShader) (process_type : Z) (w : World)
  : Z -> GstGLESShader -> World -> Prop :=
| NoVertexStage evs w' :
    LoadRun VERTEX_SHADER_BASENAME GL_VERTEX_SHADER 0 evs ->
    effect w evs (shaders w) (programs w) w' ->
    LoadShadersRun shader process_type w (- EINVAL) (set_vertex_shader 0 shader) w'
| NoFragmentStage basename v obj_v evs_v evs_f w' :
    shader_basename_at process_type = Some basename ->
    v ≠ 0 -> shaders w !! v = None -> programs w !! v = None ->
    LoadRun VERTEX_SHADER_BASENAME GL_VERTEX_SHADER v evs_v ->
    LoadRun basename GL_FRAGMENT_SHADER 0 evs_f ->
    effect w (evs_v ++ evs_f) (<[v := obj_v]> (shaders w)) (programs w) w' ->
    LoadShadersRun shader process_type w (- EINVAL)
      (set_fragment_shader 0 (set_vertex_shader v shader)) w'
| BothStages basename v f obj_v obj_f evs_v evs_f w' :
    shader_basename_at process_type = Some basename ->
    v ≠ 0 -> f ≠ 0 -> v ≠ f ->
    shaders w !! v = None -> shaders w !! f = None ->
    programs w !! v = None -> programs w !! f = None ->
    LoadRun VERTEX_SHADER_BASENAME GL_VERTEX_SHADER v evs_v ->
    LoadRun basename GL_FRAGMENT_SHADER f evs_f ->
    effect w (evs_v ++ evs_f) (<[f := obj_f]> (<[v := obj_v]> (shaders w)))
           (programs w) w' ->
    LoadShadersRun shader process_type w 0
      (set_fragment_shader f (set_vertex_shader v shader)) w'.

(** The diagnostic of an attach step. *)
Definition attach_log (format : string) (err : Z) : list Event :=
  if err =? GL_NO_ERROR then [] else [ ELog LOG_ERROR format [ArgInt err] ].

(** The calls of [gl_init_shader] from the first attach to the link,
    for the error flags [e1] and [e2] read after the two attach steps. *)
Definition attach_and_link (p v f e1 e2 : Z) : list Event :=
  [ EAttachShader p v; EGetError e1 ]
  ++ attach_log ("Error while attaching the vertex shader: 0x%04x" +:+ nl) e1
  ++ [ EAttachShader p f; EGetError e2 ]
  ++ attach_log ("Error while attaching the fragment shader: 0x%04x" +:+ nl) e2
  ++ [ EBindAttribLocation p 0 "vPosition"; ELinkProgram p ].

(** The calls that fetch and report a link log of length [info_len]. *)
Definition link_log (p info_len : Z) (log : string) : list Event :=
  if 1 <? info_len then
    [ EMalloc info_len; EGetProgramInfoLog p info_len (Some log);
      ELog LOG_ERROR "Failed to link GL program: %s" [ArgStr log]; EFree ]
  else [].

(** The calls of the link-failure path, after the link. *)
Definition link_failure (p info_len : Z) (log : string) : list Event :=
  [ EGetProgramiv p GL_LINK_STATUS (Some 0);
    ELog LOG_ERROR "Linker failure" [];
    EGetProgramiv p GL_INFO_LOG_LENGTH (Some info_len) ]
  ++ link_log p info_len log ++ [ EDeleteProgram p ].

(** The calls of the success path, after the link. *)
Definition link_success (p pos tex : Z) : list Event :=
  [ EGetProgramiv p GL_LINK_STATUS (Some 1); EUseProgram p;
    EGetAttribLocation p "vPosition" pos; EGetAttribLocation p "aTexcoord" tex;
    EClearColor 0 0 0 1 ].

(** The program object [glLinkProgram] leaves behind. *)
Definition link (w : World) (po : program_obj) : program_obj :=
  let r := drv_link drv (omap (fun s => shaders w !! s) (pr_attached po))
                    (pr_bound po) in
  mkProgramObj (pr_attached po) (pr_bound po) (lr_status r)
               (if lr_status r
                then List.map (locate (pr_bound po)) (lr_attribs r) else [])
               (lr_info_len r) (lr_info_log r).

(** The names of the active attributes of a program object. *)
Definition active_attribs (po : program_obj) : list string :=
  List.map fst (pr_active po).

(** The runs of [gl_init_shader] that return.  [w1] is the world after
    glCreateProgram and [w2] the world after [gl_load_shaders]. *)
Inductive InitRun (shader : GstGLESShader) (process_type : Z) (w : World)
  : Z -> GstGLESShader -> World -> Prop :=
| InitNoProgram w1 w' :
    glCreateProgram drv w = Done 0 w1 ->
    effect w [ ECreateProgram 0; ELog LOG_ERROR "Could not create GL program" [] ]
           (shaders w) (programs w) w' ->
    InitRun shader process_type w (- ENOMEM) (set_program 0 shader) w'
| InitNoStages p w1 shader1 w2 w' :
    p ≠ 0 -> programs w !! p = None ->
    glCreateProgram drv w = Done p w1 ->
    effect w [ ECreateProgram p ] (shaders w) (<[p := new_program]> (programs w)) w1 ->
    gl_load_shaders abi drv fs DATA_DIR (set_program p shader) process_type w1
      = Done (- EINVAL, shader1) w2 ->
    LoadShadersRun (set_program p shader) process_type w1 (- EINVAL) shader1 w2 ->
    effect w2 [ ELog LOG_ERROR "Could not create GL shaders: %d" [ArgInt (- EINVAL)] ]
           (shaders w2) (programs w2) w' ->
    InitRun shader process_type w (- EINVAL) shader1 w'
| InitLinkFailed p w1 shader1 w2 e1 e2 info_len log w' :
    p ≠ 0 -> programs w !! p = None ->
    glCreateProgram drv w = Done p w1 ->
    effect w [ ECreateProgram p ] (shaders w) (<[p := new_program]> (programs w)) w1 ->
    gl_load_shaders abi drv fs DATA_DIR (set_program p shader) process_type w1
      = Done (0, shader1) w2 ->
    LoadShadersRun (set_program p shader) process_type w1 0 shader1 w2 ->
    effect w2
      (attach_and_link p (vertex_shader shader1) (fragment_shader shader1) e1 e2
       ++ link_failure p info_len log)
      (shaders w2) (delete p (programs w2)) w' ->
    InitRun shader process_type w (- EINVAL) shader1 w'
| InitLinked p w1 shader1 w2 e1 e2 po w' :
    p ≠ 0 -> programs w !! p = None ->
    glCreateProgram drv w = Done p w1 ->
    effect w [ ECreateProgram p ] (shaders w) (<[p := new_program]> (programs w)) w1 ->
    gl_load_shaders abi drv fs DATA_DIR (set_program p shader) process_type w1
      = Done (0, shader1) w2 ->
    LoadShadersRun (set_program p shader) process_type w1 0 shader1 w2 ->
    pr_linked po = true ->
    (∃ attribs, pr_active po = List.map (locate [("vPosition", 0)]) attribs) ->
    effect w2
      (attach_and_link p (vertex_shader shader1) (fragment_shader shader1) e1 e2
       ++ link_success p (default (-1) (lookup_attrib "vPosition" (pr_active po)))
                         (default (-1) (lookup_attrib "aTexcoord" (pr_active po))))
      (shaders w2) (<[p := po]> (programs w2)) w' ->
    InitRun shader process_type w 0
      (set_texcoord_loc (default (-1) (lookup_attrib "aTexcoord" (pr_active po)))
         (set_position_loc (default (-1) (lookup_attrib "vPosition" (pr_active po)))
            shader1)) w'.

End Runs.

(** ** Concrete drivers and file systems

    A small driver in the manner of a GLSL implementation, to run the
    loader on: a source compiles when it has a [main], a program links
    when a compiled vertex and a compiled fragment stage are attached, and
    the active attributes are those of [vPosition] and [aTexcoord] that
    the vertex source mentions. *)

Module Scenario.

Definition mentions (src : list byte) (word : string) : bool :=
  match strstr (string_of_list_byte src) word with
  | Some _ => true
  | None => false
  end.

Definition compile (type : Z) (src : list byte) : CompileResult :=
  if mentions src "main" then mkCompileResult true 0 EmptyString
  else mkCompileResult false 22 "ERROR: main not found".

Definition has_stage (type : Z) (objs : list shader_obj) : bool :=
  existsb (fun o => (sh_type o =? type) && sh_compiled o) objs.

Definition active_in (src : list byte) : list (string * Z) :=
  (if mentions src "aTexcoord" then [("aTexcoord", 1)] else [])
  ++ (if mentions src "vPosition" then [("vPosition", 2)] else []).

Definition link_objs (objs : list shader_obj) (bound : list (string * Z))
  : LinkResult :=
  if has_stage GL_VERTEX_SHADER objs && has_stage GL_FRAGMENT_SHADER objs then
    mkLinkResult true 0 EmptyString
      (flat_map (fun o => if sh_type o =? GL_VERTEX_SHADER
                          then active_in (sh_source o) else []) objs)
  else mkLinkResult false 31 "ERROR: missing a shader stage." [].

Definition driver (extensions : string) (attach_error : Z) : Driver :=
  mkDriver (fun name => if name =? GL_EXTENSIONS then extensions else EmptyString)
           (fun tr => Z.of_nat (length tr) + 1)
           (fun _ format binary =>
              if (format =? GL_NVIDIA_PLATFORM_BINARY_NV)
                 && negb (Nat.eqb (length binary) 0)
              then GL_NO_ERROR else GL_INVALID_VALUE)
           compile
           (fun _ => attach_error)
           link_objs
           16.

(** A driver without the binary extension, and one with it. *)
Definition plain_driver : Driver :=
  driver "GL_OES_depth24 GL_OES_texture_npot" GL_NO_ERROR.
Definition tegra_driver : Driver :=
  driver "GL_OES_depth24 GL_NV_platform_binary GL_NV_fence" GL_NO_ERROR.
(** A driver that runs out of memory whenever a shader is attached. *)
Definition starved_driver : Driver :=
  driver "GL_OES_depth24 GL_OES_texture_npot" GL_OUT_OF_MEMORY.

Definition data_dir : string := DEFAULT_DATA_DIR.

Definition vertex_glsl : list byte :=
  list_byte_of_string
    "attribute vec4 vPosition; attribute vec2 aTexcoord; varying vec2 vTexcoord; void main() { gl_Position = vPosition; vTexcoord = aTexcoord; }".

(** A vertex stage that never mentions [vPosition]. *)
Definition vertex_glsl_no_position : list byte :=
  list_byte_of_string
    "attribute vec2 aTexcoord; varying vec2 vTexcoord; void main() { gl_Position = vec4(aTexcoord, 0.0, 1.0); vTexcoord = aTexcoord; }".

Definition copy_glsl : list byte :=
  list_byte_of_string
    "precision mediump float; varying vec2 vTexcoord; uniform sampler2D s_tex; void main() { gl_FragColor = texture2D(s_tex, vTexcoord); }".

(** A source file with a NUL byte after its first line. *)
Definition nul_glsl : list byte :=
  list_byte_of_string "void main() {}" ++ [x00] ++ list_byte_of_string "// tail".

Definition files (table : list (string * list byte)) : FileSystem :=
  fun path =>
    match List.find (fun '(name, _) => String.eqb (data_dir +:+ "/" +:+ name) path)
                    table with
    | Some (_, contents) => ReadOk contents
    | None => ReadErr "No such file or directory"
    end.

(** Sources for the vertex stage and the copy kind, and for
    deint_linear a source without a [main]; no binaries. *)
Definition deint_linear_glsl : list byte :=
  list_byte_of_string "precision mediump float; varying vec2 vTexcoord;".

Definition source_files : FileSystem :=
  files [("vertex.glsl", vertex_glsl); ("copy.glsl", copy_glsl);
         ("deint_linear.glsl", deint_linear_glsl)].

Definition source_files_no_position : FileSystem :=
  files [("vertex.glsl", vertex_glsl_no_position); ("copy.glsl", copy_glsl)].

Definition binary_files : FileSystem :=
  files [("vertex.glsh", [x01; x02; x03; x04]); ("vertex.glsl", vertex_glsl)].

Definition nul_files : FileSystem := files [("vertex.glsl", nul_glsl)].

Definition vertex_glsl_path : string := data_dir +:+ "/vertex.glsl".
Definition vertex_glsh_path : string := data_dir +:+ "/vertex.glsh".

(** A structure as the sink hands it in. *)
Definition blank : GstGLESShader := mkShader 0 0 0 0 0.

(** The copy program, initialised from sources, and the world it lives in. *)
Definition linked : GstGLESShader := mkShader 1 7 22 0 1.
Definition linked_world : World :=
  outcome_world
    (gl_init_shader ILP32 plain_driver source_files data_dir blank SHADER_COPY
       initial_world).

(** On the starved driver: the world with the program object created,
    and the world with both stages loaded. *)
Definition starved_created : World :=
  outcome_world (glCreateProgram starved_driver initial_world).
Definition starved_loaded : World :=
  outcome_world
    (gl_load_shaders ILP32 starved_driver source_files data_dir (set_program 1 blank)
       SHADER_COPY starved_created).

End Scenario.

(** * Verification *)

(** ** The program logic *)

Lemma returns_bind {A B : Type} (m : M A) (k : A -> M B) w (Q : B -> World -> Prop) :
  returns m w (fun a w1 => returns (k a) w1 Q) -> returns (m ≫= k) w Q.
Proof.
  intros (a & w1 & Hm & b & w2 & Hk & HQ). exists b, w2. split; [|done].
  unfold mbind, M_bind. by rewrite Hm.
Qed.

Lemma returns_ret {A : Type} (a : A) w (Q : A -> World -> Prop) :
  Q a w -> returns (mret a) w Q.
Proof. intros HQ. by exists a, w. Qed.

Lemma returns_wand {A : Type} (m : M A) w (Q Q' : A -> World -> Prop) :
  returns m w Q -> (∀ a w', Q a w' -> Q' a w') -> returns m w Q'.
Proof. intros (a & w' & Hm & HQ) HQQ. exists a, w'. eauto. Qed.

Lemma returns_wand_eq {A : Type} (m : M A) w (Q Q' : A -> World -> Prop) :
  returns m w Q -> (∀ a w', m w = Done a w' -> Q a w' -> Q' a w') -> returns m w Q'.
Proof. intros (a & w' & Hm & HQ) HQQ. exists a, w'. eauto. Qed.

Lemma returns_emit e w (Q : unit -> World -> Prop) :
  Q tt (add_event e w) -> returns (emit e) w Q.
Proof. intros HQ. by exists tt, (add_event e w). Qed.

Lemma returns_bind_Done {A B : Type} (m : M A) (k : A -> M B) w a w1
    (Q : B -> World -> Prop) :
  m w = Done a w1 -> returns (k a) w1 Q -> returns (m ≫= k) w Q.
Proof.
  intros Hm (b & w2 & Hk & HQ). exists b, w2. split; [|done].
  unfold mbind, M_bind. by rewrite Hm.
Qed.

(** The same rules for a computation that may fault. *)
Lemma runs_to_ret {A : Type} (a : A) w (Q : A -> World -> Prop) F :
  Q a w -> runs_to (mret a) w Q F.
Proof. done. Qed.

Lemma runs_to_fault {A : Type} w (Q : A -> World -> Prop) (F : Prop) :
  F -> runs_to fault w Q F.
Proof. done. Qed.

Lemma runs_to_bindR {A B : Type} (m : M A) (k : A -> M B) w (Q : B -> World -> Prop) F :
  returns m w (fun a w1 => runs_to (k a) w1 Q F) -> runs_to (m ≫= k) w Q F.
Proof.
  intros (a & w1 & Hm & Hk). unfold runs_to, mbind, M_bind in *. by rewrite Hm.
Qed.

Lemma runs_to_bind {A B : Type} (m : M A) (k : A -> M B) w (Q1 : A -> World -> Prop)
    (Q : B -> World -> Prop) (F1 F : Prop) :
  runs_to m w Q1 F1 -> (F1 -> F) ->
  (∀ a w1, m w = Done a w1 -> Q1 a w1 -> runs_to (k a) w1 Q F) ->
  runs_to (m ≫= k) w Q F.
Proof.
  unfold runs_to, mbind, M_bind. intros Hm HF Hk.
  destruct (m w) as [a w1|w1]; [by apply Hk|by apply HF].
Qed.

Lemma runs_to_Done {A : Type} (m : M A) w (Q : A -> World -> Prop) F a w' :
  runs_to m w Q F -> m w = Done a w' -> Q a w'.
Proof. unfold runs_to. intros Hm Heq. by rewrite Heq in Hm. Qed.

Lemma runs_to_Fault {A : Type} (m : M A) w (Q : A -> World -> Prop) F w' :
  runs_to m w Q F -> m w = Fault w' -> F.
Proof. unfold runs_to. intros Hm Heq. by rewrite Heq in Hm. Qed.

(** Without what undefined behaviour needs, the computation returns. *)
Lemma runs_to_returns {A : Type} (m : M A) w (Q : A -> World -> Prop) (F : Prop) :
  runs_to m w Q F -> ¬ F -> returns m w Q.
Proof.
  unfold runs_to, returns. intros Hm HF.
  destruct (m w) as [a w1|w1]; [by exists a, w1|done].
Qed.

Lemma returns_runs_to {A : Type} (m : M A) w (Q : A -> World -> Prop) (F : Prop) :
  returns m w Q -> runs_to m w Q F.
Proof. intros (a & w' & Hm & HQ). unfold runs_to. by rewrite Hm. Qed.


Lemma effect_refl w : effect w [] (shaders w) (programs w) w.
Proof. unfold effect. by rewrite app_nil_r. Qed.

Lemma effect_shaders w evs sh pr w' : effect w evs sh pr w' -> shaders w' = sh.
Proof. by intros (_ & ? & _). Qed.
Lemma effect_programs w evs sh pr w' : effect w evs sh pr w' -> programs w' = pr.
Proof. by intros (_ & _ & ?). Qed.
Lemma effect_add_event e w : effect w [e] (shaders w) (programs w) (add_event e w).
Proof. done. Qed.

Lemma effect_record_error w e evs sh pr w' :
  effect w evs sh pr w' -> effect w evs sh pr (record_error e w').
Proof. unfold effect, record_error. by destruct (gl_error w' =? GL_NO_ERROR). Qed.

Lemma effect_trans w evs1 sh1 pr1 w1 evs2 sh2 pr2 w2 :
  effect w evs1 sh1 pr1 w1 -> effect w1 evs2 sh2 pr2 w2 ->
  effect w (evs1 ++ evs2) sh2 pr2 w2.
Proof.
  intros (Ht1 & _ & _) (Ht2 & Hs2 & Hp2).
  repeat split; try done. by rewrite Ht2, Ht1, app_assoc.
Qed.

Lemma name_free_spec n w :
  name_free n w = true ->
  n ≠ 0 ∧ shaders w !! n = None ∧ programs w !! n = None.
Proof.
  unfold name_free. rewrite !andb_true_iff, negb_true_iff, Z.eqb_neq.
  rewrite !bool_decide_eq_true. tauto.
Qed.

Section Primitives.
Variable drv : Driver.
Variable fs : FileSystem.

Lemma glCreateShader_spec type w :
  returns (glCreateShader drv type) w (fun n w' =>
    (n = 0 ∧ effect w [ECreateShader type 0] (shaders w) (programs w) w') ∨
    (n ≠ 0 ∧ shaders w !! n = None ∧ programs w !! n = None ∧
     effect w [ECreateShader type n] (<[n := new_shader type]> (shaders w))
          (programs w) w')).
Proof.
  unfold glCreateShader, returns, mbind, M_bind, get_world. cbn.
  destruct (negb _); [|destruct (name_free _ _) eqn:Hfree].
  - eexists _, _. split; [reflexivity|]. left. split; [done|].
    apply effect_record_error, effect_add_event.
  - apply name_free_spec in Hfree as (? & ? & ?).
    eexists _, _. split; [reflexivity|]. right. by repeat split.
  - eexists _, _. split; [reflexivity|]. left. by repeat split.
Qed.

Lemma glCreateProgram_spec w :
  returns (glCreateProgram drv) w (fun n w' =>
    (n = 0 ∧ effect w [ECreateProgram 0] (shaders w) (programs w) w') ∨
    (n ≠ 0 ∧ shaders w !! n = None ∧ programs w !! n = None ∧
     effect w [ECreateProgram n] (shaders w)
            (<[n := new_program]> (programs w)) w')).
Proof.
  unfold glCreateProgram, returns, mbind, M_bind, get_world. cbn.
  destruct (name_free _ _) eqn:Hfree.
  - apply name_free_spec in Hfree as (? & ? & ?).
    eexists _, _. split; [reflexivity|]. right. by repeat split.
  - eexists _, _. split; [reflexivity|]. left. by repeat split.
Qed.

Lemma glGetError_spec w :
  returns glGetError w (fun e w' =>
    e = gl_error w ∧ effect w [EGetError e] (shaders w) (programs w) w').
Proof. eexists _, _. split; [reflexivity|]. by repeat split. Qed.

Lemma glDeleteShader_spec s w :
  returns (glDeleteShader s) w (fun _ w' =>
    effect w [EDeleteShader s]
           (if s =? 0 then shaders w else delete s (shaders w)) (programs w) w').
Proof.
  unfold glDeleteShader, returns, mbind, M_bind, emit, modify. cbn.
  destruct (s =? 0); cbn.
  - eexists _, _. split; [reflexivity|]. by repeat split.
  - eexists _, _. split; [reflexivity|].
    destruct (shaders w !! s) eqn:Hs.
    + by repeat split.
    + apply effect_record_error. repeat split; try done. cbn.
      symmetry. by apply delete_id.
Qed.

Lemma glDeleteProgram_spec p w :
  returns (glDeleteProgram p) w (fun _ w' =>
    effect w [EDeleteProgram p] (shaders w)
           (if p =? 0 then programs w else delete p (programs w)) w').
Proof.
  unfold glDeleteProgram, returns, mbind, M_bind, emit, modify. cbn.
  destruct (p =? 0); cbn.
  - eexists _, _. split; [reflexivity|]. by repeat split.
  - eexists _, _. split; [reflexivity|].
    destruct (programs w !! p) eqn:Hs.
    + by repeat split.
    + apply effect_record_error. repeat split; try done. cbn.
      symmetry. by apply delete_id.
Qed.

Lemma gl_error_record_error e w :
  gl_error (record_error e w) = GL_NO_ERROR -> e = GL_NO_ERROR.
Proof.
  unfold record_error. destruct (gl_error w =? GL_NO_ERROR) eqn:He; cbn; [done|].
  apply Z.eqb_neq in He. done.
Qed.

(** A binary passes without leaving an error only if the driver took it. *)
Lemma glShaderBinary_spec s fmt bin len w o :
  shaders w !! s = Some o ->
  returns (glShaderBinary drv s fmt bin len) w (fun _ w' =>
    ∃ o', effect w [EShaderBinary s fmt bin len] (<[s := o']> (shaders w))
                 (programs w) w' ∧
          (gl_error w' = GL_NO_ERROR ->
           0 <= len ∧
           drv_binary drv (sh_type o) fmt (take (Z.to_nat len) bin) = GL_NO_ERROR)).
Proof.
  intros Hs.
  unfold glShaderBinary, returns, mbind, M_bind, emit, modify. cbn. rewrite Hs.
  eexists _, _. split; [reflexivity|].
  destruct (len <? 0) eqn:Hlen;
    [|destruct (drv_binary _ _ _ _ =? GL_NO_ERROR) eqn:Hacc].
  - exists o. split.
    + apply effect_record_error. repeat split; try done. cbn. by rewrite insert_id.
    + by intros ?%gl_error_record_error.
  - eexists. split; [by repeat split|]. intros _. split; [lia|].
    by apply Z.eqb_eq.
  - exists o. split.
    + apply effect_record_error. repeat split; try done. cbn. by rewrite insert_id.
    + intros ?%gl_error_record_error. apply Z.eqb_neq in Hacc. done.
Qed.

Lemma glShaderSource_spec s src len w o :
  shaders w !! s = Some o ->
  returns (glShaderSource s src len) w (fun _ w' =>
    ∃ o', effect w [EShaderSource s src len] (<[s := o']> (shaders w))
                 (programs w) w').
Proof.
  intros Hs.
  unfold glShaderSource, returns, mbind, M_bind, emit, modify. cbn. rewrite Hs.
  eexists _, _. split; [reflexivity|]. eexists. by repeat split.
Qed.

Lemma glCompileShader_spec s w o :
  shaders w !! s = Some o ->
  returns (glCompileShader drv s) w (fun _ w' =>
    ∃ o', effect w [ECompileShader s] (<[s := o']> (shaders w)) (programs w) w').
Proof.
  intros Hs.
  unfold glCompileShader, returns, mbind, M_bind, emit, modify. cbn. rewrite Hs.
  eexists _, _. split; [reflexivity|]. eexists. by repeat split.
Qed.

Lemma glGetShaderiv_spec s pname w o v :
  shaders w !! s = Some o -> shader_param o pname = Some v ->
  returns (glGetShaderiv s pname) w (fun r w' =>
    r = Some v ∧
    effect w [EGetShaderiv s pname (Some v)] (shaders w) (programs w) w').
Proof.
  intros Hs Hv.
  unfold glGetShaderiv, returns, mbind, M_bind, emit, modify, get_world.
  rewrite Hs, Hv. cbn. rewrite ?Hv.
  eexists _, _. split; [reflexivity|]. by repeat split.
Qed.

Lemma glGetShaderInfoLog_spec s bufsize w o :
  shaders w !! s = Some o ->
  returns (glGetShaderInfoLog s bufsize) w (fun r w' =>
    ∃ log, r = Some log ∧
      effect w [EGetShaderInfoLog s bufsize (Some log)] (shaders w) (programs w) w').
Proof.
  intros Hs.
  unfold glGetShaderInfoLog, returns, mbind, M_bind, emit, modify, get_world.
  rewrite Hs. cbn.
  eexists _, _. split; [reflexivity|]. eexists. by repeat split.
Qed.

Lemma glAttachShader_spec p s w po :
  programs w !! p = Some po ->
  returns (glAttachShader drv p s) w (fun _ w' =>
    ∃ po', effect w [EAttachShader p s] (shaders w) (<[p := po']> (programs w)) w' ∧
           pr_bound po' = pr_bound po).
Proof.
  intros Hp.
  unfold glAttachShader, returns, mbind, M_bind, emit, modify. cbn. rewrite Hp.
  eexists _, _. split; [reflexivity|].
  assert (Hid : ∀ e, effect w [EAttachShader p s] (shaders w)
                       (<[p := po]> (programs w))
                       (record_error e (add_event (EAttachShader p s) w))).
  { intros e. apply effect_record_error. repeat split; try done. cbn.
    by rewrite insert_id. }
  destruct (shaders w !! s); [|by eauto].
  destruct (_ || _); [by eauto|].
  destruct (_ =? _); [|by eauto].
  eexists. split; [by repeat split|done].
Qed.

Lemma glBindAttribLocation_spec p name w po :
  programs w !! p = Some po -> String.prefix "gl_" name = false ->
  returns (glBindAttribLocation drv p 0 name) w (fun _ w' =>
    effect w [EBindAttribLocation p 0 name] (shaders w)
      (<[p := mkProgramObj (pr_attached po) ((name, 0) :: pr_bound po)
                           (pr_linked po) (pr_active po)
                           (pr_info_len po) (pr_info_log po)]> (programs w)) w').
Proof.
  intros Hp Hname.
  unfold glBindAttribLocation, returns, mbind, M_bind, emit, modify. cbn.
  rewrite Hp, Hname.
  assert ((Z.max MIN_MAX_VERTEX_ATTRIBS (drv_max_vertex_attribs drv) <=? 0) = false)
    as -> by (unfold MIN_MAX_VERTEX_ATTRIBS; lia).
  eexists _, _. split; [reflexivity|]. by repeat split.
Qed.

Lemma glLinkProgram_spec p w po :
  programs w !! p = Some po ->
  returns (glLinkProgram drv p) w (fun _ w' =>
    effect w [ELinkProgram p] (shaders w) (<[p := link drv w po]> (programs w)) w').
Proof.
  intros Hp.
  unfold glLinkProgram, returns, mbind, M_bind, emit, modify. cbn. rewrite Hp.
  eexists _, _. split; [reflexivity|]. by repeat split.
Qed.

Lemma glGetProgramiv_spec p pname w po v :
  programs w !! p = Some po -> program_param po pname = Some v ->
  returns (glGetProgramiv p pname) w (fun r w' =>
    r = Some v ∧
    effect w [EGetProgramiv p pname (Some v)] (shaders w) (programs w) w').
Proof.
  intros Hs Hv.
  unfold glGetProgramiv, returns, mbind, M_bind, emit, modify, get_world.
  rewrite Hs, Hv. cbn. rewrite ?Hv.
  eexists _, _. split; [reflexivity|]. by repeat split.
Qed.

Lemma glGetProgramInfoLog_spec p bufsize w po :
  programs w !! p = Some po ->
  returns (glGetProgramInfoLog p bufsize) w (fun r w' =>
    ∃ log, r = Some log ∧
      effect w [EGetProgramInfoLog p bufsize (Some log)] (shaders w) (programs w) w').
Proof.
  intros Hs.
  unfold glGetProgramInfoLog, returns, mbind, M_bind, emit, modify, get_world.
  rewrite Hs. cbn.
  eexists _, _. split; [reflexivity|]. eexists. by repeat split.
Qed.

Lemma glUseProgram_spec p w :
  returns (glUseProgram p) w (fun _ w' =>
    effect w [EUseProgram p] (shaders w) (programs w) w').
Proof.
  unfold glUseProgram, returns, mbind, M_bind, emit, modify. cbn.
  destruct (p =? 0); cbn; (eexists _, _; split; [reflexivity|]); [done|].
  destruct (programs w !! p) as [po|]; [destruct (pr_linked po)|];
    try apply effect_record_error; done.
Qed.

Lemma glGetAttribLocation_spec p name w po :
  programs w !! p = Some po -> pr_linked po = true ->
  String.prefix "gl_" name = false ->
  returns (glGetAttribLocation p name) w (fun loc w' =>
    loc = default (-1) (lookup_attrib name (pr_active po)) ∧
    effect w [EGetAttribLocation p name loc] (shaders w) (programs w) w').
Proof.
  intros Hp Hl Hname.
  unfold glGetAttribLocation, attrib_location, returns, mbind, M_bind, emit,
    modify, get_world.
  rewrite Hp, Hl, Hname. cbn.
  eexists _, _. split; [reflexivity|]. by repeat split.
Qed.

End Primitives.

(** ** Stepping through a computation *)

(** Fold the effect of the latest call into the effect since the start. *)
Ltac accumulate :=
  match goal with
  | Hacc : effect ?w0 ?evs0 _ _ ?w1, Hnew : effect ?w1 ?evs1 _ _ ?w2 |- _ =>
      let H := fresh "Hacc" in
      pose proof (effect_trans _ _ _ _ _ _ _ _ _ Hacc Hnew) as H;
      cbn [app] in H;
      repeat (progress (rewrite <- ?app_assoc in H; cbn [app] in H));
      rewrite ?(effect_shaders _ _ _ _ _ Hacc), ?(effect_programs _ _ _ _ _ Hacc) in *;
      rewrite ?insert_insert_eq in H;
      clear Hacc Hnew; try clear w1
  end.

Ltac name_world :=
  match goal with
  | |- context [add_event ?e ?w] =>
      let H := fresh "Hnew" in
      let w' := fresh "u" in
      pose proof (effect_add_event e w) as H;
      set (w' := add_event e w) in *; clearbody w'; accumulate
  end.

(** The steps are the same whether the goal is [returns] or [runs_to]. *)
Ltac wp_bind := first [ apply returns_bind | apply runs_to_bindR ].
Ltac wp_ret := first [ apply returns_ret | apply runs_to_ret ].

Ltac wp_emit := wp_bind; apply returns_emit; cbn beta; name_world.
Ltac wp_emit_last := apply returns_emit; cbn beta; name_world.

Ltac wp_call lem :=
  wp_bind; eapply returns_wand; [ eapply lem | cbn beta ].

(** A call that may fault, with the reason [H] why its fault is one of the
    caller's; the equation of the call is kept. *)
Ltac wp_run lem H :=
  eapply runs_to_bind; [ eapply lem | H | cbn beta ].

Section Stages.
Variable abi : DataModel.
Variable drv : Driver.
Variable fs : FileSystem.
Variable DATA_DIR : string.

Lemma StageEffect_failed w evs w' :
  effect w evs (shaders w) (programs w) w' -> StageEffect w evs 0 w'.
Proof. intros (? & ? & ?). by repeat split. Qed.

Lemma StageEffect_loaded w evs s o w' :
  s ≠ 0 -> shaders w !! s = None -> programs w !! s = None ->
  effect w evs (<[s := o]> (shaders w)) (programs w) w' -> StageEffect w evs s w'.
Proof. intros ? ? ? (? & ? & ?). repeat split; try done. by exists o. Qed.

Lemma gl_load_binary_shader_spec filename type w :
  runs_to (gl_load_binary_shader abi drv fs filename type) w (fun s w' =>
    ∃ evs, BinaryRun abi drv fs filename type s evs ∧ StageEffect w evs s w')
    (binary_undefined abi drv fs filename).
Proof.
  pose proof (effect_refl w) as Hacc.
  unfold gl_load_binary_shader, gl_extension_available, glGetString, binary_cleanup.
  wp_bind. apply returns_bind. wp_emit. apply returns_ret.
  apply returns_ret.
  fold (binary_supported drv). destruct (binary_supported drv) eqn:Hext; cbn [negb].
  2: { unfold GST_WARNING_OBJECT. wp_emit. wp_ret.
       eexists. split; [|by apply StageEffect_failed]. by constructor. }
  unfold g_file_new_for_path. wp_bind. wp_emit. apply returns_ret.
  wp_call glCreateShader_spec.
  intros n w1 [(-> & Hnew)|(Hn & Hfs & Hfp & Hnew)]; accumulate.
  { cbn. unfold GST_ERROR_OBJECT, g_free, g_object_unref.
    do 3 wp_emit. wp_ret.
    eexists. split; [|by apply StageEffect_failed]. by constructor. }
  assert (Hn0 : (n =? 0) = false) by by apply Z.eqb_neq.
  rewrite Hn0.
  unfold g_file_load_contents. wp_bind. wp_emit. apply returns_ret.
  destruct (fs filename) as [binary|message] eqn:Hread.
  - destruct abi eqn:Habi;
      [|apply runs_to_fault; split; [done|split; [done|by exists binary]]].
    wp_call glShaderBinary_spec.
    { erewrite effect_shaders by eassumption. apply lookup_insert_eq. }
    intros _ w1 (o' & Hnew & Hok). cbn [sh_type new_shader] in Hok.
    accumulate.
    wp_call glGetError_spec. intros err w2 (-> & Hnew). accumulate.
    destruct (gl_error w1 =? GL_NO_ERROR) eqn:Herr; cbn [negb].
    + apply Z.eqb_eq in Herr. destruct (Hok Herr) as (Hlen & Hacc').
      rewrite Herr in *.
      unfold g_free, g_object_unref. do 2 wp_emit. wp_ret.
      eexists. split; [|by eapply StageEffect_loaded]. by constructor.
    + apply Z.eqb_neq in Herr.
      unfold GST_ERROR_OBJECT. wp_emit.
      wp_call glDeleteShader_spec. intros _ w3 Hnew. accumulate.
      unfold g_free, g_object_unref. do 2 wp_emit. wp_ret.
      rewrite Hn0, delete_insert_id in * by done.
      eexists. split; [|by apply StageEffect_failed]. by constructor.
  - unfold GST_ERROR_OBJECT. wp_emit.
    wp_call glDeleteShader_spec. intros _ w3 Hnew. accumulate.
    unfold g_free, g_object_unref. do 2 wp_emit. wp_ret.
    rewrite Hn0, delete_insert_id in * by done.
    eexists. split; [|by apply StageEffect_failed]. by econstructor.
Qed.

Lemma gl_load_source_shader_spec filename type w :
  runs_to (gl_load_source_shader drv fs filename type) w (fun s w' =>
    ∃ evs, SourceRun fs filename type s evs ∧ StageEffect w evs s w')
    (source_undefined fs filename).
Proof.
  pose proof (effect_refl w) as Hacc.
  unfold gl_load_source_shader.
  wp_call glCreateShader_spec.
  intros n w1 [(-> & Hnew)|(Hn & Hfs & Hfp & Hnew)]; accumulate.
  { cbn. unfold GST_ERROR_OBJECT. wp_emit. wp_ret.
    eexists. split; [|by apply StageEffect_failed]. by constructor. }
  assert (Hn0 : (n =? 0) = false) by by apply Z.eqb_neq.
  rewrite Hn0.
  unfold g_file_new_for_path. wp_bind. wp_emit. apply returns_ret.
  unfold g_file_load_contents. wp_bind. wp_emit. apply returns_ret.
  destruct (fs filename) as [src|message] eqn:Hread.
  - wp_call glShaderSource_spec.
    { erewrite effect_shaders by eassumption. apply lookup_insert_eq. }
    intros _ w1 (o1 & Hnew). accumulate.
    unfold g_free, g_object_unref. do 2 wp_emit.
    wp_call glCompileShader_spec.
    { erewrite effect_shaders by eassumption. apply lookup_insert_eq. }
    intros _ w2 (o2 & Hnew). accumulate.
    wp_call glGetShaderiv_spec.
    { erewrite effect_shaders by eassumption. apply lookup_insert_eq. }
    { reflexivity. }
    intros r w3 (-> & Hnew). accumulate.
    destruct (sh_compiled o2); cbn [Z.eqb].
    + unfold GST_DEBUG_OBJECT. wp_emit. wp_ret.
      eexists. split; [|by eapply StageEffect_loaded]. by constructor.
    + wp_call glGetShaderiv_spec.
      { erewrite effect_shaders by eassumption. apply lookup_insert_eq. }
      { reflexivity. }
      intros r w4 (-> & Hnew). accumulate. cbn [default].
      wp_bind.
      assert (Hlog : returns
        (if 1 <? sh_info_len o2 then
           malloc (sh_info_len o2);;
           info_log ← glGetShaderInfoLog n (sh_info_len o2);
           match info_log with
           | Some info_log =>
               GST_ERROR_OBJECT "Failed to compile shader: %s" [ArgStr info_log];;
               free
           | None => fault
           end
         else mret ()) w4 (fun _ w' => ∃ log,
           effect w4 (compile_log n (sh_info_len o2) log)
                  (shaders w4) (programs w4) w')).
      { unfold compile_log. destruct (1 <? sh_info_len o2).
        - pose proof (effect_refl w4) as Hacc4.
          unfold malloc. wp_emit.
          wp_call glGetShaderInfoLog_spec.
          { erewrite effect_shaders by eassumption.
            erewrite effect_shaders by eassumption. apply lookup_insert_eq. }
          intros r w5 (log & -> & Hnew). accumulate.
          unfold GST_ERROR_OBJECT, free. wp_emit. wp_emit_last. by exists log.
        - apply returns_ret. exists EmptyString. apply effect_refl. }
      eapply returns_wand; [apply Hlog|]. clear Hlog.
      intros _ w5 (log & Hnew). accumulate.
      wp_call glDeleteShader_spec. intros _ w6 Hnew. accumulate.
      wp_ret.
      rewrite Hn0, delete_insert_id in * by done.
      eexists. split; [|by apply StageEffect_failed].
      by apply (SrcRejected _ _ _ n src (sh_info_len o2) log).
  - apply runs_to_fault. by exists message.
Qed.

Lemma StageEffect_inv w evs s w' :
  StageEffect w evs s w' ->
  (s = 0 ∧ effect w evs (shaders w) (programs w) w') ∨
  (s ≠ 0 ∧ shaders w !! s = None ∧ programs w !! s = None ∧
   ∃ o, effect w evs (<[s := o]> (shaders w)) (programs w) w').
Proof.
  intros (Ht & Hp & H0 & Hs). destruct (decide (s = 0)) as [->|Hne].
  - left. by repeat split; auto.
  - right. destruct (Hs Hne) as (? & ? & o & ?). repeat split; try done.
    by exists o.
Qed.

Lemma gl_load_shader_spec basename type w :
  runs_to (gl_load_shader abi drv fs DATA_DIR basename type) w (fun s w' =>
    ∃ evs, LoadRun abi drv fs DATA_DIR basename type s evs ∧ StageEffect w evs s w')
    (stage_undefined abi drv fs DATA_DIR basename).
Proof.
  pose proof (effect_refl w) as Hacc.
  unfold gl_load_shader. cbn zeta.
  fold (binary_path DATA_DIR basename) (source_path DATA_DIR basename).
  unfold GST_DEBUG_OBJECT. wp_emit.
  wp_run gl_load_binary_shader_spec ltac:(by left).
  intros s w1 _ (evs_b & Hbin & Hst).
  apply StageEffect_inv in Hst as [(-> & Hnew) | (Hs & Hfs & Hfp & o & Hnew)];
    accumulate.
  - cbn [Z.eqb]. unfold g_free. do 2 wp_emit.
    wp_run gl_load_source_shader_spec ltac:(by right).
    intros r w2 _ (evs_s & Hsrc & Hst).
    apply StageEffect_inv in Hst as [(-> & Hnew) | (Hr & Hfs & Hfp & o & Hnew)];
      accumulate; wp_emit; wp_ret.
    + eexists. split; [by apply LoadFromSource|].
      apply StageEffect_failed. eassumption.
    + eexists. split; [by apply LoadFromSource|].
      eapply StageEffect_loaded; [done..|]. eassumption.
  - assert ((s =? 0) = false) as -> by by apply Z.eqb_neq.
    unfold g_free. wp_emit. wp_ret.
    eexists. split; [by apply LoadFromBinary|].
    eapply StageEffect_loaded; [done..|]. eassumption.
Qed.

(** [gl_load_shaders], outcome by outcome of the two stage loads. *)
Lemma gl_load_shaders_unfold shader process_type w :
  gl_load_shaders abi drv fs DATA_DIR shader process_type w =
  match gl_load_shader abi drv fs DATA_DIR VERTEX_SHADER_BASENAME GL_VERTEX_SHADER w with
  | Fault w1 => Fault w1
  | Done v w1 =>
      if v =? 0 then Done (- EINVAL, set_vertex_shader 0 shader) w1
      else
        match shader_basename_at process_type with
        | None => Fault w1
        | Some basename =>
            match gl_load_shader abi drv fs DATA_DIR basename GL_FRAGMENT_SHADER w1 with
            | Fault w2 => Fault w2
            | Done f w2 =>
                Done (if f =? 0 then - EINVAL else 0,
                      set_fragment_shader f (set_vertex_shader v shader)) w2
            end
        end
  end.
Proof.
  unfold gl_load_shaders, mbind, M_bind.
  destruct (gl_load_shader _ _ _ _ VERTEX_SHADER_BASENAME _ w) as [v w1|w1]; [|done].
  cbn [vertex_shader set_vertex_shader].
  destruct (v =? 0) eqn:Hv; [by apply Z.eqb_eq in Hv as ->|].
  destruct (shader_basename_at process_type) as [b|]; [|done].
  destruct (gl_load_shader _ _ _ _ b _ w1) as [f w2|w2]; [|done].
  cbn [fragment_shader set_fragment_shader]. by destruct (f =? 0).
Qed.

Lemma gl_load_shaders_spec shader process_type w :
  runs_to (gl_load_shaders abi drv fs DATA_DIR shader process_type) w (fun r w' =>
    LoadShadersRun abi drv fs DATA_DIR shader process_type w r.1 r.2 w')
    (stages_undefined abi drv fs DATA_DIR process_type).
Proof.
  pose proof (effect_refl w) as Hacc.
  unfold gl_load_shaders.
  wp_run gl_load_shader_spec ltac:(by left).
  intros v w1 _ (evs_v & Hv & Hst). cbn [vertex_shader set_vertex_shader].
  apply StageEffect_inv in Hst as [(-> & Hnew) | (Hv0 & Hfs & Hfp & o & Hnew)];
    accumulate.
  { cbn [Z.eqb]. wp_ret. cbn [fst snd]. by eapply NoVertexStage. }
  assert ((v =? 0) = false) as -> by by apply Z.eqb_neq.
  destruct (shader_basename_at process_type) as [basename|] eqn:Hbase.
  2: { apply runs_to_fault. right. by rewrite Hbase. }
  wp_run gl_load_shader_spec ltac:(intros ?; right; by rewrite Hbase).
  intros f w2 _ (evs_f & Hf & Hst). cbn [fragment_shader set_fragment_shader].
  apply StageEffect_inv in Hst as [(-> & Hnew) | (Hf0 & Hfs' & Hfp' & o' & Hnew)];
    accumulate.
  { cbn [Z.eqb]. wp_ret. cbn [fst snd]. by eapply NoFragmentStage. }
  assert ((f =? 0) = false) as -> by by apply Z.eqb_neq.
  wp_ret. cbn [fst snd].
  apply lookup_insert_None in Hfs' as (Hfs' & Hvf).
  by eapply BothStages.
Qed.

Lemma report_attach_error_spec format err w :
  returns (report_attach_error format err) w (fun _ w' =>
    effect w (attach_log format err) (shaders w) (programs w) w').
Proof.
  unfold report_attach_error, attach_log.
  destruct (err =? GL_NO_ERROR); cbn [negb].
  - apply returns_ret, effect_refl.
  - apply returns_emit, effect_add_event.
Qed.

(** [gl_init_shader] when no program object could be created. *)
Lemma gl_init_shader_no_program shader process_type w w1 :
  glCreateProgram drv w = Done 0 w1 ->
  gl_init_shader abi drv fs DATA_DIR shader process_type w =
  Done (- ENOMEM, set_program 0 shader)
       (add_event (ELog LOG_ERROR "Could not create GL program" []) w1).
Proof. intros Hcreate. unfold gl_init_shader, mbind, M_bind. by rewrite Hcreate. Qed.

(** [gl_init_shader] when loading the stages is undefined. *)
Lemma gl_init_shader_load_fault shader process_type w p w1 wf :
  glCreateProgram drv w = Done p w1 -> p ≠ 0 ->
  gl_load_shaders abi drv fs DATA_DIR (set_program p shader) process_type w1 = Fault wf ->
  gl_init_shader abi drv fs DATA_DIR shader process_type w = Fault wf.
Proof.
  intros Hcreate Hp Hload. unfold gl_init_shader, mbind, M_bind.
  rewrite Hcreate. cbn [program set_program].
  assert ((p =? 0) = false) as -> by by apply Z.eqb_neq.
  by rewrite Hload.
Qed.

(** [gl_init_shader] when a stage is missing. *)
Lemma gl_init_shader_load_failed shader process_type w p w1 ret shader1 w2 :
  glCreateProgram drv w = Done p w1 -> p ≠ 0 ->
  gl_load_shaders abi drv fs DATA_DIR (set_program p shader) process_type w1
    = Done (ret, shader1) w2 ->
  ret < 0 ->
  gl_init_shader abi drv fs DATA_DIR shader process_type w =
  Done (ret, shader1)
       (add_event (ELog LOG_ERROR "Could not create GL shaders: %d" [ArgInt ret]) w2).
Proof.
  intros Hcreate Hp Hload Hret. unfold gl_init_shader, mbind, M_bind.
  rewrite Hcreate. cbn [program set_program].
  assert ((p =? 0) = false) as -> by by apply Z.eqb_neq.
  rewrite Hload.
  by assert ((ret <? 0) = true) as -> by by apply Z.ltb_lt.
Qed.

(** [gl_init_shader] once the program object exists and the stage loads
    have returned. *)
Lemma gl_init_shader_loaded shader process_type w p w1 ret shader1 w2 :
  glCreateProgram drv w = Done p w1 -> p ≠ 0 ->
  gl_load_shaders abi drv fs DATA_DIR (set_program p shader) process_type w1
    = Done (ret, shader1) w2 ->
  returns (gl_init_shader abi drv fs DATA_DIR shader process_type) w (fun r w' =>
    InitRun abi drv fs DATA_DIR shader process_type w r.1 r.2 w').
Proof.
  intros Hcreate Hp Hloadeq.
  pose proof (effect_refl w) as Hacc.
  destruct (glCreateProgram_spec drv w) as (p' & w1' & Hc & Hspec).
  rewrite Hcreate in Hc. injection Hc as <- <-.
  destruct Hspec as [(-> & Hnew)|(_ & Hfs & Hfp & Hnew)]; [done|].
  pose proof (gl_load_shaders_spec (set_program p shader) process_type w1) as Hload.
  unfold runs_to in Hload. rewrite Hloadeq in Hload. cbn [fst snd] in Hload.
  unfold gl_init_shader.
  eapply returns_bind_Done; [exact Hcreate|]. accumulate.
  cbn [program set_program].
  assert ((p =? 0) = false) as -> by by apply Z.eqb_neq.
  eapply returns_bind_Done; [exact Hloadeq|]. cbn beta iota.
  pose proof (effect_refl w2) as Hacc2.
  assert (Hprog : program shader1 = p) by (by destruct Hload).
  assert (Hprogs : programs w2 !! p = Some new_program).
  { assert (programs w2 = programs w1) as ->
      by (destruct Hload; by eapply effect_programs).
    erewrite effect_programs by eassumption. apply lookup_insert_eq. }
  assert (Hret : ret = - EINVAL ∨ ret = 0) by (destruct Hload; auto).
  destruct Hret as [-> | ->].
  { cbn. unfold GST_ERROR_OBJECT. wp_emit. apply returns_ret.
    cbn [fst snd]. by eapply InitNoStages. }
  change (0 <? 0) with false. cbn iota. rewrite Hprog.
  set (v := vertex_shader shader1). set (f := fragment_shader shader1).
  (* attach the vertex stage *)
  wp_call glAttachShader_spec; [exact Hprogs|].
  intros _ w3 (po1 & Hnew & Hb1). accumulate.
  wp_call glGetError_spec. intros e1 w4 (_ & Hnew). accumulate.
  wp_call report_attach_error_spec. intros _ w5 Hnew. accumulate.
  (* attach the fragment stage *)
  wp_call glAttachShader_spec.
  { erewrite effect_programs by eassumption. apply lookup_insert_eq. }
  intros _ w6 (po2 & Hnew & Hb2). accumulate.
  wp_call glGetError_spec. intros e2 w7 (_ & Hnew). accumulate.
  wp_call report_attach_error_spec. intros _ w8 Hnew. accumulate.
  (* bind and link *)
  wp_call glBindAttribLocation_spec.
  { erewrite effect_programs by eassumption. apply lookup_insert_eq. }
  { reflexivity. }
  intros _ w9 Hnew. accumulate.
  wp_call glLinkProgram_spec.
  { erewrite effect_programs by eassumption. apply lookup_insert_eq. }
  intros _ w10 Hnew. accumulate.
  rewrite Hb2, Hb1 in *. cbn [pr_bound new_program] in *.
  match goal with H : effect w2 _ _ (<[p := ?x]> _) w10 |- _ => set (po := x) in * end.
  wp_call glGetProgramiv_spec.
  { erewrite effect_programs by eassumption. apply lookup_insert_eq. }
  { reflexivity. }
  intros r w11 (-> & Hnew). accumulate.
  destruct (pr_linked po) eqn:Hlinked.
  - (* linked *)
    change (1 =? 0) with false. cbn iota.
    wp_call glUseProgram_spec. intros _ w12 Hnew. accumulate.
    wp_call glGetAttribLocation_spec.
    { erewrite effect_programs by eassumption. apply lookup_insert_eq. }
    { exact Hlinked. }
    { reflexivity. }
    intros pos w13 (-> & Hnew). accumulate.
    cbn [program set_position_loc]. rewrite Hprog.
    wp_call glGetAttribLocation_spec.
    { erewrite effect_programs by eassumption. apply lookup_insert_eq. }
    { exact Hlinked. }
    { reflexivity. }
    intros tex w14 (-> & Hnew). accumulate.
    unfold glClearColor. wp_emit. apply returns_ret. cbn [fst snd].
    eapply (InitLinked _ _ _ _ _ _ _ p w1 shader1 w2 e1 e2 po); try done.
    + subst po. unfold link in *. cbn [pr_linked pr_active pr_bound] in *.
      rewrite Hlinked. eauto.
    + unfold attach_and_link, link_success.
      repeat (progress (rewrite <- ?app_assoc; cbn [app])). eassumption.
  - (* not linked *)
    change (0 =? 0) with true. cbn iota.
    unfold GST_ERROR_OBJECT at 1. wp_emit.
    wp_call glGetProgramiv_spec.
    { erewrite effect_programs by eassumption. apply lookup_insert_eq. }
    { reflexivity. }
    intros r w12 (-> & Hnew). accumulate. cbn [default].
    apply returns_bind.
    assert (Hlog : returns
      (if 1 <? pr_info_len po then
         malloc (pr_info_len po);;
         info_log ← glGetProgramInfoLog p (pr_info_len po);
         match info_log with
         | Some info_log =>
             GST_ERROR_OBJECT "Failed to link GL program: %s" [ArgStr info_log];;
             free
         | None => fault
         end
       else mret ()) w12 (fun _ w' => ∃ log,
         effect w12 (link_log p (pr_info_len po) log)
                (shaders w12) (programs w12) w')).
    { unfold link_log. destruct (1 <? pr_info_len po).
      - pose proof (effect_refl w12) as Hacc12.
        unfold malloc. wp_emit.
        wp_call glGetProgramInfoLog_spec.
        { erewrite effect_programs by eassumption.
          erewrite effect_programs by eassumption. apply lookup_insert_eq. }
        intros r w13 (log & -> & Hnew). accumulate.
        unfold GST_ERROR_OBJECT, free. wp_emit. wp_emit_last. by exists log.
      - apply returns_ret. exists EmptyString. apply effect_refl. }
    eapply returns_wand; [apply Hlog|]. clear Hlog.
    intros _ w13 (log & Hnew). accumulate.
    wp_call glDeleteProgram_spec. intros _ w14 Hnew. accumulate.
    apply returns_ret. cbn [fst snd].
    assert ((p =? 0) = false) as Hp0 by by apply Z.eqb_neq.
    rewrite Hp0, delete_insert_eq in *.
    eapply (InitLinkFailed _ _ _ _ _ _ _ p w1 shader1 w2 e1 e2 (pr_info_len po) log);
      try done.
    unfold attach_and_link, link_failure.
    repeat (progress (rewrite <- ?app_assoc; cbn [app])). eassumption.
Qed.


Lemma gl_init_shader_spec shader process_type w :
  runs_to (gl_init_shader abi drv fs DATA_DIR shader process_type) w (fun r w' =>
    InitRun abi drv fs DATA_DIR shader process_type w r.1 r.2 w')
    (stages_undefined abi drv fs DATA_DIR process_type).
Proof.
  destruct (glCreateProgram_spec drv w) as (p & w1 & Hcreate & Hspec).
  destruct Hspec as [(-> & Hnew)|(Hp & _)].
  { unfold runs_to. rewrite (gl_init_shader_no_program _ _ _ _ Hcreate).
    cbn [fst snd]. eapply InitNoProgram; [exact Hcreate|].
    destruct Hnew as (Ht & Hs & Hp). unfold effect, add_event. cbn.
    rewrite Ht, <- app_assoc. by repeat split. }
  destruct (gl_load_shaders abi drv fs DATA_DIR (set_program p shader) process_type w1)
    as [[ret shader1] w2|wf] eqn:Hload.
  - apply returns_runs_to. by eapply gl_init_shader_loaded.
  - pose proof (gl_load_shaders_spec (set_program p shader) process_type w1) as H.
    unfold runs_to in H |- *. rewrite Hload in H.
    by rewrite (gl_init_shader_load_fault _ _ _ _ _ _ Hcreate Hp Hload).
Qed.

End Stages.

(** ** Running a computation by equations *)

Lemma bind_Done {A B : Type} (m : M A) (k : A -> M B) w a w1 :
  m w = Done a w1 -> (m ≫= k) w = k a w1.
Proof. intros Hm. unfold mbind, M_bind. by rewrite Hm. Qed.

Lemma bind_emit {B : Type} e (k : unit -> M B) w :
  (emit e ≫= k) w = k tt (add_event e w).
Proof. reflexivity. Qed.

Lemma append_inj_l (s a b : string) : s +:+ a = s +:+ b -> a = b.
Proof. induction s as [|c s IH]; cbn; [done|]. intros [=]. auto. Qed.

Lemma path_ext_differ dir base :
  g_strdup_printf dir base SHADER_EXT_BINARY ≠ g_strdup_printf dir base SHADER_EXT_SOURCE.
Proof.
  unfold g_strdup_printf. intros H%append_inj_l%append_inj_l%append_inj_l.
  discriminate.
Qed.

(** Membership of an event in an explicit list of events. *)
Ltac in_events H :=
  repeat (apply elem_of_cons in H as [H|H]; [by inversion H|]);
  try (by apply elem_of_nil in H).

Lemma strlen_no_nul (buf : list byte) : x00 ∉ buf -> strlen buf = length buf.
Proof.
  induction buf as [|b buf IH]; cbn; [done|].
  intros [Hb Hbuf]%not_elem_of_cons.
  destruct (Byte.eqb b x00) eqn:Heq.
  - apply Byte.byte_dec_bl in Heq. congruence.
  - by rewrite IH.
Qed.

Lemma strlen_nul (buf : list byte) : x00 ∈ buf -> (strlen buf < length buf)%nat.
Proof.
  induction buf as [|b buf IH]; cbn.
  - by intros ?%elem_of_nil.
  - intros [<-|Hin]%elem_of_cons.
    + change (Byte.eqb x00 x00) with true. cbn iota. lia.
    + destruct (Byte.eqb b x00); [lia|]. apply IH in Hin. lia.
Qed.

Lemma to_int32_small z : 0 <= z < 2 ^ 31 -> to_int32 z = z.
Proof.
  unfold to_int32. change (2 ^ 31) with 2147483648. change (2 ^ 32) with 4294967296.
  intros Hz. rewrite Z.mod_small; lia.
Qed.

Lemma lookup_attrib_cons name n v l :
  lookup_attrib name ((n, v) :: l) =
  if String.eqb n name then Some v else lookup_attrib name l.
Proof. unfold lookup_attrib. cbn. by destruct (String.eqb n name). Qed.

(** After a link with [name] bound to [idx] and nothing else bound, [name]
    sits at [idx] if it is active and has no location if it is not. *)
Lemma lookup_attrib_locate name idx attribs :
  lookup_attrib name (List.map (locate [(name, idx)]) attribs) =
  if bool_decide (name ∈ List.map fst attribs) then Some idx else None.
Proof.
  induction attribs as [|[n v] attribs IH]; [done|].
  cbn [List.map fst]. unfold locate at 1. cbn [fst snd].
  rewrite !lookup_attrib_cons, IH.
  destruct (String.eqb n name) eqn:Hn.
  - apply String.eqb_eq in Hn as ->. rewrite String.eqb_refl. cbn.
    rewrite bool_decide_eq_true_2; [done|]. apply list_elem_of_here.
  - apply String.eqb_neq in Hn.
    destruct (bool_decide (name ∈ List.map fst attribs)) eqn:Hin.
    + apply bool_decide_eq_true in Hin. rewrite bool_decide_eq_true_2; [done|].
      by apply list_elem_of_further.
    + apply bool_decide_eq_false in Hin. rewrite bool_decide_eq_false_2; [done|].
      intros [?|?]%elem_of_cons; congruence.
Qed.

Lemma map_fst_locate bound attribs :
  List.map fst (List.map (locate bound) attribs) = List.map fst attribs.
Proof. induction attribs as [|a attribs IH]; cbn; by rewrite ?IH. Qed.

Lemma forallb_app_true {A : Type} (f : A -> bool) l1 l2 :
  forallb f l1 = true -> forallb f l2 = true -> forallb f (l1 ++ l2) = true.
Proof. intros H1 H2. by rewrite forallb_app, H1, H2. Qed.

Lemma forallb_elem_of {A : Type} (f : A -> bool) l x :
  forallb f l = true -> x ∈ l -> f x = true.
Proof.
  intros Hall Hin. rewrite forallb_forall in Hall. by apply Hall, list_elem_of_In.
Qed.

(** All the ways an event can be in an explicit list of events. *)
Ltac cases_in H :=
  repeat (apply elem_of_cons in H as [H|H]);
  [ .. | by apply elem_of_nil in H ].

(** The same for a list built with [++]; the cases left are the
    equations with the listed events and membership in the opaque parts. *)
Ltac explode_in H :=
  repeat first
    [ apply elem_of_nil in H; destruct H
    | apply elem_of_cons in H as [H|H]
    | apply elem_of_app in H as [H|H] ].

(** An event is in an explicit list of events. *)
Ltac is_in :=
  repeat first [ by apply list_elem_of_here | apply list_elem_of_further ].

(** The same in a list built with [++]. *)
Ltac find_in :=
  first [ by apply list_elem_of_here
        | apply list_elem_of_further; find_in
        | apply elem_of_app; left; find_in
        | apply elem_of_app; right; find_in ].

Section Claims.
Variable abi : DataModel.
Variable drv : Driver.
Variable fs : FileSystem.
Variable DATA_DIR : string.

(** The binary loader touches no file but the one it is given. *)
Lemma binary_run_files filename type s evs path :
  BinaryRun abi drv fs filename type s evs ->
  EFileNew path ∈ evs ∨ EFileLoadContents path ∈ evs -> path = filename.
Proof. intros Hrun [Hin|Hin]; destruct Hrun; in_events Hin. Qed.

(** Without the extension the binary loader is the query and the
    warning. *)
Lemma gl_load_binary_shader_unsupported filename type w :
  binary_supported drv = false ->
  gl_load_binary_shader abi drv fs filename type w =
  Done 0
    (add_event
       (ELog LOG_WARNING
          "Binary shaders are not supported, falling back to source shaders." [])
       (add_event (EGetString GL_EXTENSIONS) w)).
Proof.
  unfold binary_supported. intros Hext.
  unfold gl_load_binary_shader, gl_extension_available, glGetString.
  unfold mbind, M_bind, mret, M_ret, GST_WARNING_OBJECT, emit, modify.
  cbn beta iota.
  by destruct (g_strstr_len (drv_string drv GL_EXTENSIONS) (-1) "GL_NV_platform_binary").
Qed.

(** Under LP64 the binary loader that has its shader object and reads
    its file stores eight bytes into the four of [length]: from there on
    its behaviour is undefined. *)
Lemma gl_load_binary_shader_LP64 filename type w binary n w1 :
  abi = LP64 ->
  binary_supported drv = true ->
  fs filename = ReadOk binary ->
  glCreateShader drv type
    (add_event (EFileNew filename) (add_event (EGetString GL_EXTENSIONS) w))
    = Done n w1 ->
  n ≠ 0 ->
  gl_load_binary_shader abi drv fs filename type w =
  Fault (add_event (EFileLoadContents filename) w1).
Proof.
  unfold binary_supported. intros -> Hext Hread Hcreate Hn.
  unfold gl_load_binary_shader, gl_extension_available, glGetString,
    g_file_new_for_path, g_file_load_contents.
  unfold mbind, M_bind, mret, M_ret, emit, modify. cbn beta iota.
  destruct (g_strstr_len (drv_string drv GL_EXTENSIONS) (-1) "GL_NV_platform_binary");
    [|discriminate].
  cbn [negb]. rewrite Hcreate.
  assert ((n =? 0) = false) as -> by by apply Z.eqb_neq.
  by rewrite Hread.
Qed.

(** C1.  For every basename and stage type, [gl_load_shader] first builds
    the binary path [<DATA_DIR>/<basename>.glsh] and runs the binary
    loader on it.  If that returns a non-zero handle, the handle is
    returned and the source file is never opened or read.  If it returns
    0, the source path [<DATA_DIR>/<basename>.glsl] is built from the same
    basename, the source compiler runs on it, and what the source compiler
    does is what [gl_load_shader] does: it returns its result, handle or
    0, and where the source compiler's behaviour is undefined so is that
    of [gl_load_shader]; the same holds of the binary loader.  When the
    driver does not advertise binary shaders, the binary attempt is the
    extension query and the warning and returns 0, so the source compiler
    is always run. *)
Theorem C1_binary_first_then_source basename type w :
  let bin := DATA_DIR +:+ "/" +:+ basename +:+ ".glsh" in
  let src := DATA_DIR +:+ "/" +:+ basename +:+ ".glsl" in
  let w0 := add_event (ELog LOG_DEBUG "Load binary shader from %s" [ArgStr bin]) w in
  match gl_load_binary_shader abi drv fs bin type w0 with
  | Fault wf => gl_load_shader abi drv fs DATA_DIR basename type w = Fault wf
  | Done s w1 =>
      ∃ evs,
        trace w1 = trace w0 ++ evs ∧
        (s ≠ 0 ->
           gl_load_shader abi drv fs DATA_DIR basename type w
             = Done s (add_event (EGFree (MemStr bin)) w1) ∧
           (EFileNew src ∉ evs) ∧ (EFileLoadContents src ∉ evs)) ∧
        (s = 0 ->
           gl_load_shader abi drv fs DATA_DIR basename type w =
           match gl_load_source_shader drv fs src type
                   (add_event (ELog LOG_DEBUG "Load source shader from %s" [ArgStr src])
                      (add_event (EGFree (MemStr bin)) w1)) with
           | Done r w2 => Done r (add_event (EGFree (MemStr src)) w2)
           | Fault wf => Fault wf
           end)
  end ∧
  (binary_supported drv = false ->
     gl_load_binary_shader abi drv fs bin type w0 =
     Done 0
       (add_event
          (ELog LOG_WARNING
             "Binary shaders are not supported, falling back to source shaders." [])
          (add_event (EGetString GL_EXTENSIONS) w0))).
Proof.
  intros bin src w0.
  split; [|apply gl_load_binary_shader_unsupported].
  assert (Hload : gl_load_shader abi drv fs DATA_DIR basename type w =
            (s ← gl_load_binary_shader abi drv fs bin type;
             if s =? 0 then
               g_free (MemStr bin);;
               GST_DEBUG_OBJECT "Load source shader from %s" [ArgStr src];;
               shader ← gl_load_source_shader drv fs src type;
               g_free (MemStr src);;
               mret shader
             else g_free (MemStr bin);; mret s) w0).
  { unfold gl_load_shader. cbn zeta.
    change (g_strdup_printf DATA_DIR basename SHADER_EXT_BINARY) with bin.
    change (g_strdup_printf DATA_DIR basename SHADER_EXT_SOURCE) with src.
    unfold GST_DEBUG_OBJECT. by rewrite bind_emit. }
  pose proof (gl_load_binary_shader_spec abi drv fs bin type w0) as Hspec.
  unfold runs_to in Hspec.
  destruct (gl_load_binary_shader abi drv fs bin type w0) as [s w1|wf] eqn:Hrun.
  2: { rewrite Hload. unfold mbind, M_bind. by rewrite Hrun. }
  rewrite (bind_Done _ _ _ _ _ Hrun) in Hload.
  destruct Hspec as (evs & Hbin & Hst).
  exists evs. split; [apply Hst|]. split.
  - intros Hs. split.
    + rewrite Hload. by apply Z.eqb_neq in Hs as ->.
    + split; intros Hin; apply (path_ext_differ DATA_DIR basename);
        symmetry; eapply binary_run_files; eauto.
  - intros ->. rewrite Hload. cbn [Z.eqb].
    unfold g_free, GST_DEBUG_OBJECT. rewrite !bind_emit.
    unfold mbind, M_bind. by destruct (gl_load_source_shader _ _ _ _ _).
Qed.

(** C7.  If the extension string of the driver does not contain
    [GL_NV_platform_binary], [gl_load_binary_shader] returns 0 at once:
    it does not fault, and the only calls it makes are the query of the
    extension string and the warning, so no file object is created, no
    file is read and no shader object is created; the object stores and
    the error flag are as before. *)
Theorem C7_binary_unsupported_returns_0 filename type w :
  g_strstr_len (drv_string drv GL_EXTENSIONS) (-1) "GL_NV_platform_binary" = None ->
  ∃ w',
    gl_load_binary_shader abi drv fs filename type w = Done 0 w' ∧
    trace w' =
      trace w ++
      [ EGetString GL_EXTENSIONS;
        ELog LOG_WARNING
          "Binary shaders are not supported, falling back to source shaders." [] ] ∧
    shaders w' = shaders w ∧ programs w' = programs w ∧
    gl_error w' = gl_error w ∧ current_program w' = current_program w.
Proof.
  intros Hext. eexists. split.
  - unfold gl_load_binary_shader, gl_extension_available, glGetString.
    unfold mbind, M_bind, mret, M_ret, GST_WARNING_OBJECT, emit, modify.
    cbn beta iota. rewrite Hext. reflexivity.
  - cbn. by rewrite <- app_assoc.
Qed.

(** C8.  Where a [gsize] is as wide as a [GLsizei] (ILP32), so that
    the length of the file can be stored through [(gsize * )&length]:
    when the driver advertises binary shaders, the binary loader does not
    fault, and: a non-zero handle is returned only when the
    shader object was created under that name, the file was read, its
    bytes were submitted for that shader in the vendor format, the
    driver took them, and glGetError then reported no error, and the
    object is live on return; when 0 is returned the shader store is as
    it was, and a shader object that was created has been deleted; in
    every case the last two calls free the buffer (the bytes read, or
    NULL when nothing was read) and drop the file object. *)
Theorem C8_binary_loader_result filename type w :
  abi = ILP32 ->
  binary_supported drv = true ->
  returns (gl_load_binary_shader abi drv fs filename type) w (fun s w' =>
    ∃ evs pre buf,
      trace w' = trace w ++ evs ∧
      BinaryRun abi drv fs filename type s evs ∧
      evs = pre ++ [ EGFree buf; EObjectUnref filename ] ∧
      EFileNew filename ∈ pre ∧
      (∀ binary, fs filename = ReadOk binary ->
                 EFileLoadContents filename ∈ pre -> buf = MemBytes binary) ∧
      (EFileLoadContents filename ∉ pre -> buf = MemNull) ∧
      (s ≠ 0 ->
         ∃ binary,
           ECreateShader type s ∈ pre ∧
           fs filename = ReadOk binary ∧
           EFileLoadContents filename ∈ pre ∧
           EShaderBinary s GL_NVIDIA_PLATFORM_BINARY_NV binary
             (to_int32 (Z.of_nat (length binary))) ∈ pre ∧
           drv_binary drv type GL_NVIDIA_PLATFORM_BINARY_NV
             (take (Z.to_nat (to_int32 (Z.of_nat (length binary)))) binary)
             = GL_NO_ERROR ∧
           EGetError GL_NO_ERROR ∈ pre ∧
           (∀ n, EDeleteShader n ∉ pre) ∧
           is_Some (shaders w' !! s)) ∧
      (s = 0 ->
         shaders w' = shaders w ∧
         ∀ n, n ≠ 0 -> ECreateShader type n ∈ pre -> EDeleteShader n ∈ pre)).
Proof.
  intros Habi Hext.
  eapply returns_wand.
  { eapply runs_to_returns; [apply gl_load_binary_shader_spec|].
    intros (Hlp & _). congruence. }
  intros s w' (evs & Hrun & Ht & Hp & Hs0 & Hs1).
  destruct Hrun as [Hno| |n message ? Hn Hread|n binary err ? Hn Hread ? Herr
                    |n binary ? Hn Hread ? Hlen Hacc]; [congruence|..].
  - eexists _, [_; _; _; _], _. split; [done|]. split; [by constructor|].
    split; [done|]. split; [is_in|]. split.
    { intros binary _ Hin. in_events Hin. }
    split; [done|]. split; [done|]. intros _. split; [auto|].
    intros n Hn Hin. in_events Hin.
  - eexists _, [_; _; _; _; _; _], _. split; [done|].
    split; [by econstructor|].
    split; [done|]. split; [is_in|]. split.
    { intros binary Hb _. congruence. }
    split; [intros Hnot; exfalso; apply Hnot; is_in|].
    split; [done|]. intros _. split; [auto|].
    intros n' Hn' Hin. cases_in Hin; inversion Hin; subst; is_in.
  - eexists _, [_; _; _; _; _; _; _; _], _. split; [done|].
    split; [by econstructor|].
    split; [done|]. split; [is_in|]. split.
    { intros binary' Hb _. congruence. }
    split; [intros Hnot; exfalso; apply Hnot; is_in|].
    split; [done|]. intros _. split; [auto|].
    intros n' Hn' Hin. cases_in Hin; inversion Hin; subst; is_in.
  - eexists _, [_; _; _; _; _; _], _. split; [done|].
    split; [by econstructor|].
    split; [done|]. split; [is_in|]. split.
    { intros binary' Hb _. congruence. }
    split; [intros Hnot; exfalso; apply Hnot; is_in|].
    split; [|done]. intros _. exists binary.
    destruct (Hs1 Hn) as (_ & _ & o & ->).
    repeat split; try done; try is_in.
    + intros n' Hin. in_events Hin.
    + rewrite lookup_insert_eq. by eexists.
Qed.

(** C5 (amended).  [gl_delete_shader] does not look at the handles: it
    hands the vertex stage, then the fragment stage, then the program to
    the driver for deletion, in that order, and returns the structure
    with the three handle fields set to 0 and the two locations as they
    were.  Every non-zero handle is gone from the object stores. *)
Theorem C5_delete_vertex_fragment_program shader w :
  returns (gl_delete_shader shader) w (fun shader' w' =>
    shader' = mkShader 0 0 0 (position_loc shader) (texcoord_loc shader) ∧
    trace w' =
      trace w ++
      [ EDeleteShader (vertex_shader shader);
        EDeleteShader (fragment_shader shader);
        EDeleteProgram (program shader) ] ∧
    (vertex_shader shader ≠ 0 -> shaders w' !! vertex_shader shader = None) ∧
    (fragment_shader shader ≠ 0 -> shaders w' !! fragment_shader shader = None) ∧
    (program shader ≠ 0 -> programs w' !! program shader = None)).
Proof.
  pose proof (effect_refl w) as Hacc.
  unfold gl_delete_shader.
  wp_call glDeleteShader_spec. intros _ w1 Hnew. accumulate.
  cbn [fragment_shader set_vertex_shader].
  wp_call glDeleteShader_spec. intros _ w2 Hnew. accumulate.
  cbn [program set_fragment_shader vertex_shader fragment_shader position_loc
       texcoord_loc].
  wp_call glDeleteProgram_spec. intros _ w3 Hnew. accumulate.
  apply returns_ret.
  match goal with H : effect _ _ _ _ _ |- _ => destruct H as (Ht & Hs & Hp) end.
  cbn [program vertex_shader fragment_shader position_loc texcoord_loc
       set_vertex_shader set_fragment_shader set_program] in *.
  split; [done|]. split; [done|]. rewrite Hs, Hp.
  repeat split; intros Hne%Z.eqb_neq; rewrite ?Hne.
  - destruct (fragment_shader shader =? 0); rewrite ?lookup_delete;
      repeat case_decide; try done; apply lookup_delete_eq.
  - apply lookup_delete_eq.
  - apply lookup_delete_eq.
Qed.

(** C6 (amended).  When the file is read, the source compiler does not
    fault and submits the buffer with an explicit length, and that length
    is the result of [strlen] on the buffer, stored in a GLint: the
    number of bytes before the first NUL byte.  It is the full length of
    the file exactly when the file holds no NUL byte (and is shorter than
    2^31 bytes); with a NUL byte in the file it is smaller. *)
Theorem C6_source_length_is_strlen filename type src w :
  fs filename = ReadOk src ->
  returns (gl_load_source_shader drv fs filename type) w (fun s w' =>
    ∃ evs,
      trace w' = trace w ++ evs ∧
      (∀ n, n ≠ 0 -> ECreateShader type n ∈ evs ->
            EShaderSource n src (to_int32 (Z.of_nat (strlen src))) ∈ evs) ∧
      (∀ n buf len, EShaderSource n buf len ∈ evs ->
            buf = src ∧ len = to_int32 (Z.of_nat (strlen src))) ∧
      (x00 ∉ src -> Z.of_nat (length src) < 2 ^ 31 ->
            to_int32 (Z.of_nat (strlen src)) = Z.of_nat (length src)) ∧
      (x00 ∈ src -> (strlen src < length src)%nat)).
Proof.
  intros Hread.
  eapply returns_wand.
  { eapply runs_to_returns; [apply gl_load_source_shader_spec|].
    intros (message & Herr). congruence. }
  intros s w' (evs & Hrun & Ht & _).
  exists evs. split; [done|].
  split; [|split; [|split]].
  - intros n Hn Hin. destruct Hrun as [|n' src' ? ? ? Hr|n' src' ? Hr].
    + cases_in Hin; inversion Hin; by subst.
    + assert (src' = src) as -> by congruence.
      apply elem_of_app. left.
      apply elem_of_app in Hin as [Hin|Hin].
      * cases_in Hin; inversion Hin; subst; is_in.
      * apply elem_of_app in Hin as [Hin|Hin]; [|in_events Hin].
        unfold compile_log in Hin. destruct (1 <? _); in_events Hin.
    + assert (src' = src) as -> by congruence.
      cases_in Hin; inversion Hin; subst; is_in.
  - intros n buf len Hin. destruct Hrun as [|n' src' ? ? ? Hr|n' src' ? Hr].
    + in_events Hin.
    + assert (src' = src) as -> by congruence.
      apply elem_of_app in Hin as [Hin|Hin].
      * cases_in Hin; by inversion Hin.
      * apply elem_of_app in Hin as [Hin|Hin]; [|in_events Hin].
        unfold compile_log in Hin. destruct (1 <? _); in_events Hin.
    + assert (src' = src) as -> by congruence.
      cases_in Hin; by inversion Hin.
  - intros Hnul Hlen. rewrite strlen_no_nul by done. apply to_int32_small. lia.
  - apply strlen_nul.
Qed.

Lemma shader_basename_at_valid process_type :
  is_Some (shader_basename_at process_type) <->
  process_type = SHADER_DEINT_LINEAR ∨ process_type = SHADER_COPY.
Proof.
  unfold shader_basename_at, SHADER_DEINT_LINEAR, SHADER_COPY. split.
  - intros [b Hb]. destruct (process_type <? 0) eqn:Hneg; [done|].
    apply Z.ltb_ge in Hneg. apply lookup_lt_Some in Hb. cbn in Hb. lia.
  - intros [-> | ->]; cbn; by eexists.
Qed.

(** C10.  [shader_basenames] has two entries, deint_linear at
    SHADER_DEINT_LINEAR and copy at SHADER_COPY, and the read
    [shader_basenames[process_type]] is defined exactly for these two
    values.  [gl_load_shaders] makes that read, unchecked, once the vertex
    stage has loaded, and what it reads is the basename of the fragment
    stage it loads: with an entry [basename], [gl_load_shaders] is the
    load of [basename] as the fragment stage, so that no fault of it is a
    fault of the lookup; without an entry the read outside the table is
    the fault, and no fragment stage is loaded. *)
Theorem C10_table_lookup_unchecked :
  length shader_basenames = 2%nat ∧
  shader_basename_at SHADER_DEINT_LINEAR = Some "deint_linear" ∧
  shader_basename_at SHADER_COPY = Some "copy" ∧
  (∀ process_type,
     is_Some (shader_basename_at process_type) <->
     process_type = SHADER_DEINT_LINEAR ∨ process_type = SHADER_COPY) ∧
  (∀ shader process_type w,
     match gl_load_shader abi drv fs DATA_DIR VERTEX_SHADER_BASENAME
             GL_VERTEX_SHADER w with
     | Fault w1 =>
         gl_load_shaders abi drv fs DATA_DIR shader process_type w = Fault w1
     | Done v w1 =>
         (v = 0 ->
            gl_load_shaders abi drv fs DATA_DIR shader process_type w =
            Done (- EINVAL, set_vertex_shader 0 shader) w1) ∧
         (v ≠ 0 ->
            ∀ basename, shader_basename_at process_type = Some basename ->
              gl_load_shaders abi drv fs DATA_DIR shader process_type w =
              match gl_load_shader abi drv fs DATA_DIR basename
                      GL_FRAGMENT_SHADER w1 with
              | Done f w2 =>
                  Done (if f =? 0 then - EINVAL else 0,
                        set_fragment_shader f (set_vertex_shader v shader)) w2
              | Fault w2 => Fault w2
              end) ∧
         (v ≠ 0 ->
            shader_basename_at process_type = None ->
            gl_load_shaders abi drv fs DATA_DIR shader process_type w = Fault w1)
     end).
Proof.
  split; [done|]. split; [done|]. split; [done|].
  split; [apply shader_basename_at_valid|].
  intros shader process_type w. rewrite gl_load_shaders_unfold.
  destruct (gl_load_shader _ _ _ _ VERTEX_SHADER_BASENAME _ w) as [v w1|w1]; [|done].
  split; [by intros ->|].
  split.
  - intros Hv%Z.eqb_neq basename ->. by rewrite Hv.
  - intros Hv%Z.eqb_neq ->. by rewrite Hv.
Qed.

(** *** What the two stage loads leave behind *)

Lemma BinaryRun_stage_events filename type s evs :
  BinaryRun abi drv fs filename type s evs -> forallb stage_event evs = true.
Proof. by destruct 1. Qed.

Lemma SourceRun_stage_events filename type s evs :
  SourceRun fs filename type s evs -> forallb stage_event evs = true.
Proof.
  destruct 1; try done.
  unfold compile_log. by destruct (1 <? _).
Qed.

Lemma LoadRun_stage_events basename type s evs :
  LoadRun abi drv fs DATA_DIR basename type s evs -> forallb stage_event evs = true.
Proof.
  destruct 1 as [s evs _ Hbin|s evs_bin evs_src Hbin Hsrc].
  - apply BinaryRun_stage_events in Hbin.
    by repeat (apply forallb_app_true; try done).
  - apply BinaryRun_stage_events in Hbin. apply SourceRun_stage_events in Hsrc.
    by repeat (apply forallb_app_true; try done).
Qed.

Lemma LoadShadersRun_world shader process_type w r shader1 w' :
  LoadShadersRun abi drv fs DATA_DIR shader process_type w r shader1 w' ->
  program shader1 = program shader ∧ programs w' = programs w ∧
  ∃ evs, trace w' = trace w ++ evs ∧ forallb stage_event evs = true.
Proof.
  destruct 1 as [evs w' Hv (Ht & _ & Hp)
                |b v ov evs_v evs_f w' _ _ _ _ Hv Hf (Ht & _ & Hp)
                |b v f ov obf evs_v evs_f w' _ _ _ _ _ _ _ _ Hv Hf (Ht & _ & Hp)];
    (split; [done|]); (split; [done|]); eexists; (split; [exact Ht|]);
    repeat (apply forallb_app_true); by eapply LoadRun_stage_events.
Qed.

Lemma LoadShadersRun_loaded shader process_type w shader1 w' :
  LoadShadersRun abi drv fs DATA_DIR shader process_type w 0 shader1 w' ->
  vertex_shader shader1 ≠ 0 ∧ fragment_shader shader1 ≠ 0 ∧
  vertex_shader shader1 ≠ fragment_shader shader1 ∧
  is_Some (shaders w' !! vertex_shader shader1) ∧
  is_Some (shaders w' !! fragment_shader shader1).
Proof.
  inversion 1 as [| |b v f ov obf evs_v evs_f w0 _ Hv Hf Hvf _ _ _ _ _ _ (_ & Hs & _)].
  subst. cbn [vertex_shader fragment_shader set_vertex_shader set_fragment_shader].
  rewrite Hs. repeat split; try done.
  - rewrite lookup_insert_ne by done. rewrite lookup_insert_eq. by eexists.
  - rewrite lookup_insert_eq. by eexists.
Qed.

Lemma LoadShadersRun_failed shader process_type w shader1 w' :
  LoadShadersRun abi drv fs DATA_DIR shader process_type w (- EINVAL) shader1 w' ->
  vertex_shader shader1 = 0 ∨ fragment_shader shader1 = 0.
Proof. inversion 1; subst; cbn; auto. Qed.

Lemma InitLinked_position po attribs :
  pr_active po = List.map (locate [("vPosition", 0)]) attribs ->
  default (-1) (lookup_attrib "vPosition" (pr_active po)) =
  if bool_decide ("vPosition" ∈ active_attribs po) then 0 else -1.
Proof.
  intros Hact. unfold active_attribs. rewrite Hact, map_fst_locate.
  rewrite lookup_attrib_locate. by destruct (bool_decide _).
Qed.

(** C2 (amended).  [gl_init_shader] ends by what its calls yield, for
    every shader kind.  When glCreateProgram yields 0 it returns -ENOMEM
    with the program field 0, and the object stores are as before.
    Otherwise the stages are loaded.  When the loads return and a stage
    handle is 0, it returns -EINVAL with that stage field 0.  When both
    stages have loaded, the two handles are non-zero and distinct, the
    stages are attached, [vPosition] is bound and the program is linked,
    and then either the link status read is 1 and it returns 0, with the
    program and both stage identifiers non-zero, the stages live, the
    program object live and linked and the two location fields holding
    what the driver reported for [vPosition] and [aTexcoord] (for
    [vPosition] that is 0 when it is an active attribute of the linked
    program and -1 when it is not), or the link status read is 0 and it
    returns -EINVAL with both stage fields non-zero and the program
    object deleted.  Where the behaviour of a stage load is undefined, so
    is that of [gl_init_shader]. *)
Theorem C2_init_result shader process_type w :
  ∃ p w1,
    glCreateProgram drv w = Done p w1 ∧
    (p = 0 ->
       gl_init_shader abi drv fs DATA_DIR shader process_type w =
         Done (- ENOMEM, set_program 0 shader)
              (add_event (ELog LOG_ERROR "Could not create GL program" []) w1) ∧
       shaders w1 = shaders w ∧ programs w1 = programs w) ∧
    (p ≠ 0 ->
       match gl_load_shaders abi drv fs DATA_DIR (set_program p shader)
               process_type w1 with
       | Fault wf =>
           gl_init_shader abi drv fs DATA_DIR shader process_type w = Fault wf
       | Done (ret, sh1) w2 =>
           program sh1 = p ∧
           (ret ≠ 0 ->
              ret = - EINVAL ∧
              (vertex_shader sh1 = 0 ∨ fragment_shader sh1 = 0) ∧
              gl_init_shader abi drv fs DATA_DIR shader process_type w =
                Done (- EINVAL, sh1)
                     (add_event
                        (ELog LOG_ERROR "Could not create GL shaders: %d"
                              [ArgInt (- EINVAL)]) w2)) ∧
           (ret = 0 ->
              vertex_shader sh1 ≠ 0 ∧ fragment_shader sh1 ≠ 0 ∧
              vertex_shader sh1 ≠ fragment_shader sh1 ∧
              ∃ r w' e1 e2 post,
                gl_init_shader abi drv fs DATA_DIR shader process_type w
                  = Done r w' ∧
                trace w' =
                  trace w2
                  ++ attach_and_link p (vertex_shader sh1) (fragment_shader sh1) e1 e2
                  ++ post ∧
                is_Some (shaders w' !! vertex_shader sh1) ∧
                is_Some (shaders w' !! fragment_shader sh1) ∧
                ((r.1 = 0 ∧
                  post = link_success p (position_loc r.2) (texcoord_loc r.2) ∧
                  program r.2 = p ∧
                  vertex_shader r.2 = vertex_shader sh1 ∧
                  fragment_shader r.2 = fragment_shader sh1 ∧
                  ∃ po, programs w' !! p = Some po ∧ pr_linked po = true ∧
                        position_loc r.2 =
                          default (-1) (lookup_attrib "vPosition" (pr_active po)) ∧
                        texcoord_loc r.2 =
                          default (-1) (lookup_attrib "aTexcoord" (pr_active po)) ∧
                        position_loc r.2 =
                          if bool_decide ("vPosition" ∈ active_attribs po)
                          then 0 else -1) ∨
                 (r = (- EINVAL, sh1) ∧
                  (∃ info_len log, post = link_failure p info_len log) ∧
                  programs w' !! p = None)))
       end).
Proof.
  destruct (glCreateProgram_spec drv w) as (p & w1 & Hcreate & Hspec).
  exists p, w1. split; [done|]. split.
  { intros ->. split; [by apply gl_init_shader_no_program|].
    by destruct Hspec as [(_ & _ & Hs & Hp)|(Hp & _)]. }
  intros Hp.
  destruct (gl_load_shaders abi drv fs DATA_DIR (set_program p shader) process_type w1)
    as [[ret sh1] w2|wf] eqn:Hload.
  2: by eapply gl_init_shader_load_fault.
  pose proof (gl_load_shaders_spec abi drv fs DATA_DIR (set_program p shader)
                process_type w1) as Hl.
  unfold runs_to in Hl. rewrite Hload in Hl. cbn [fst snd] in Hl.
  destruct (LoadShadersRun_world _ _ _ _ _ _ Hl) as (Hprog & _).
  cbn [program set_program] in Hprog.
  split; [done|]. split.
  - intros Hret.
    assert (ret = - EINVAL) as -> by (by destruct Hl).
    split; [done|]. split; [by eapply LoadShadersRun_failed|].
    by apply (gl_init_shader_load_failed _ _ _ _ _ _ _ _ _ _ _ _ Hcreate Hp Hload).
  - intros ->.
    destruct (LoadShadersRun_loaded _ _ _ _ _ Hl) as (Hv & Hf & Hvf & Hlv & Hlf).
    split; [done|]. split; [done|]. split; [done|].
    destruct (gl_init_shader_loaded _ _ _ _ _ _ _ _ _ _ _ _ Hcreate Hp Hload)
      as ([r sh'] & w' & Hrun & Hinit).
    cbn [fst snd] in Hinit.
    destruct Hinit as [w1' w' Hc _
                      |p' w1' sh1' w2' w' _ _ Hc _ Hl' _ _
                      |p' w1' sh1' w2' e1 e2 info_len log w' _ _ Hc _ Hl' _
                         (Ht & Hs & Hpr)
                      |p' w1' sh1' w2' e1 e2 po w' _ _ Hc _ Hl' _ Hlinked
                         [attribs Hact] (Ht & Hs & Hpr)];
      rewrite Hcreate in Hc; injection Hc as Hpeq Hweq; [congruence|..];
      subst p' w1'; rewrite Hload in Hl'; [discriminate Hl'|..];
      injection Hl' as <- <-.
    + exists (- EINVAL, sh1), w', e1, e2, (link_failure p info_len log).
      split; [done|]. split; [done|]. rewrite Hs. split; [done|]. split; [done|].
      right. split; [done|]. split; [by eauto|].
      rewrite Hpr. apply lookup_delete_eq.
    + eexists (0, _), w', e1, e2, _.
      split; [exact Hrun|]. split; [exact Ht|]. rewrite Hs.
      split; [done|]. split; [done|].
      left. cbn [fst snd program vertex_shader fragment_shader position_loc
                 texcoord_loc set_position_loc set_texcoord_loc].
      split; [done|]. split; [done|]. split; [done|]. split; [done|].
      split; [done|].
      exists po. rewrite Hpr, lookup_insert_eq. repeat split; try done.
      by eapply InitLinked_position.
Qed.

(** The link status read is 1 only on the run that returns 0. *)
Lemma InitRun_linked shader process_type w ret sh w' evs p :
  InitRun abi drv fs DATA_DIR shader process_type w ret sh w' ->
  trace w' = trace w ++ evs ->
  EGetProgramiv p GL_LINK_STATUS (Some 1) ∈ evs ->
  ret = 0.
Proof.
  intros Hinit Htrace Hin.
  destruct Hinit as [w1 w' _ (Ht & _ & _)
                    |p' w1 sh1 w2 w' Hp0 _ _ (Ht1 & _) _ Hload (Ht & _ & _)
                    |p' w1 sh1 w2 e1 e2 info_len log w' Hp0 _ _ (Ht1 & _) _ Hload
                       (Ht & Hs & Hp)
                    |]; [| | |done]; exfalso.
  - rewrite Ht in Htrace. apply app_inv_head in Htrace as <-.
    in_events Hin.
  - destruct (LoadShadersRun_world _ _ _ _ _ _ Hload) as (_ & _ & loads & Ht2 & Hl).
    rewrite Ht, Ht2, Ht1, <- !app_assoc in Htrace.
    apply app_inv_head in Htrace as <-.
    explode_in Hin; try (by inversion Hin).
    by apply (forallb_elem_of _ _ _ Hl) in Hin.
  - destruct (LoadShadersRun_world _ _ _ _ _ _ Hload) as (_ & _ & loads & Ht2 & Hl).
    rewrite Ht, Ht2, Ht1, <- !app_assoc in Htrace.
    apply app_inv_head in Htrace as <-.
    unfold attach_and_link, link_failure, attach_log, link_log in Hin.
    destruct (e1 =? _), (e2 =? _), (1 <? info_len);
      explode_in Hin; try (by inversion Hin);
      by apply (forallb_elem_of _ _ _ Hl) in Hin.
Qed.

(** C3 (amended).  Wherever [gl_init_shader] returns (it does unless the
    behaviour of a stage load is undefined): the link status it has read
    is 1 only if it returns 0, and on every run that returns 0 it has
    bound index 0 to the name [vPosition] on its program immediately
    before linking that program, and what follows the link is the status
    query, which yields 1, glUseProgram, the two location queries and
    glClearColor.  The position location stored in the structure is
    therefore 0 whenever [vPosition] is an active attribute of the linked
    program, whatever the order of declarations; when [vPosition] is not
    an active attribute it is -1. *)
Theorem C3_position_bound_to_0 shader process_type w :
  runs_to (gl_init_shader abi drv fs DATA_DIR shader process_type) w (fun r w' =>
    (∀ evs p,
       trace w' = trace w ++ evs ->
       EGetProgramiv p GL_LINK_STATUS (Some 1) ∈ evs -> r.1 = 0) ∧
    (r.1 = 0 ->
     ∃ pre po,
       trace w' =
         trace w ++ pre
         ++ [ EBindAttribLocation (program r.2) 0 "vPosition";
              ELinkProgram (program r.2) ]
         ++ link_success (program r.2) (position_loc r.2) (texcoord_loc r.2) ∧
       programs w' !! program r.2 = Some po ∧ pr_linked po = true ∧
       ("vPosition" ∈ active_attribs po -> position_loc r.2 = 0) ∧
       ("vPosition" ∉ active_attribs po -> position_loc r.2 = -1)))
    (stages_undefined abi drv fs DATA_DIR process_type).
Proof.
  pose proof (gl_init_shader_spec abi drv fs DATA_DIR shader process_type w) as Hspec.
  unfold runs_to in *.
  destruct (gl_init_shader abi drv fs DATA_DIR shader process_type w)
    as [[r sh'] w'|wf]; [|done].
  cbn [fst snd] in *. rename Hspec into Hinit.
  split; [intros evs p; exact (InitRun_linked _ _ _ _ _ _ _ _ Hinit)|].
  intros Hr.
  destruct Hinit as [| |
                    |p w1 sh1 w2 e1 e2 po w' Hp0 _ _ (Ht1 & _) _ Hload Hlinked
                       [attribs Hact] (Ht & Hs & Hp)]; try done.
  destruct (LoadShadersRun_world _ _ _ _ _ _ Hload) as (Hprog & _ & evs & Ht2 & _).
  cbn in Hprog.
  cbn [program vertex_shader fragment_shader position_loc texcoord_loc
       set_position_loc set_texcoord_loc].
  rewrite Hprog.
  exists ([ECreateProgram p] ++ evs
          ++ [EAttachShader p (vertex_shader sh1); EGetError e1]
          ++ attach_log ("Error while attaching the vertex shader: 0x%04x" +:+ nl) e1
          ++ [EAttachShader p (fragment_shader sh1); EGetError e2]
          ++ attach_log ("Error while attaching the fragment shader: 0x%04x" +:+ nl) e2),
         po.
  split; [|split; [|split; [|split]]].
  - rewrite Ht, Ht2, Ht1. unfold attach_and_link.
    repeat (progress (rewrite <- ?app_assoc; cbn [app])). done.
  - rewrite Hp. apply lookup_insert_eq.
  - done.
  - intros Hin. rewrite (InitLinked_position _ _ Hact).
    by rewrite bool_decide_eq_true_2.
  - intros Hin. rewrite (InitLinked_position _ _ Hact).
    by rewrite bool_decide_eq_false_2.
Qed.

(** C4.  Wherever [gl_init_shader] returns (it does unless the behaviour
    of a stage load is undefined): whenever the link status it has read
    is 0, the function returns -EINVAL.  On that path its calls after the
    two stage loads are exactly: the two attach steps, the bind, the
    link, the status query, the message "Linker failure", the query of
    the log length, then, only when that length is greater than 1, the
    retrieval and report of the log, and last glDeleteProgram on the
    program, which is gone from the store on return.  None of these calls
    deletes a shader: both stage handles in the structure are non-zero
    and still name live shader objects. *)
Theorem C4_link_failure shader process_type w :
  runs_to (gl_init_shader abi drv fs DATA_DIR shader process_type) w (fun r w' =>
    ∀ evs p,
      trace w' = trace w ++ evs ->
      EGetProgramiv p GL_LINK_STATUS (Some 0) ∈ evs ->
      r.1 = - EINVAL ∧ program r.2 = p ∧ p ≠ 0 ∧
      (∃ loads e1 e2 info_len log,
         forallb stage_event loads = true ∧
         evs = [ ECreateProgram p ] ++ loads
               ++ attach_and_link p (vertex_shader r.2) (fragment_shader r.2) e1 e2
               ++ link_failure p info_len log ∧
         (1 < info_len ->
            EGetProgramInfoLog p info_len (Some log) ∈ evs ∧
            ELog LOG_ERROR "Failed to link GL program: %s" [ArgStr log] ∈ evs) ∧
         (info_len <= 1 -> ∀ n l, EGetProgramInfoLog p n l ∉ evs) ∧
         (∀ s, EDeleteShader s ∉
                 attach_and_link p (vertex_shader r.2) (fragment_shader r.2) e1 e2
                 ++ link_failure p info_len log)) ∧
      programs w' !! p = None ∧
      vertex_shader r.2 ≠ 0 ∧ fragment_shader r.2 ≠ 0 ∧
      is_Some (shaders w' !! vertex_shader r.2) ∧
      is_Some (shaders w' !! fragment_shader r.2))
    (stages_undefined abi drv fs DATA_DIR process_type).
Proof.
  pose proof (gl_init_shader_spec abi drv fs DATA_DIR shader process_type w) as Hspec.
  unfold runs_to in *.
  destruct (gl_init_shader abi drv fs DATA_DIR shader process_type w)
    as [[r sh'] w'|wf]; [|done].
  cbn [fst snd] in *. rename Hspec into Hinit. intros evs p0 Htrace Hin.
  destruct Hinit as [w1 w' _ (Ht & _ & _)
                    |p w1 sh1 w2 w' Hp0 _ _ (Ht1 & _) _ Hload (Ht & _ & _)
                    |p w1 sh1 w2 e1 e2 info_len log w' Hp0 _ _ (Ht1 & _) _ Hload
                       (Ht & Hs & Hp)
                    |p w1 sh1 w2 e1 e2 po w' Hp0 _ _ (Ht1 & _) _ Hload Hlinked _
                       (Ht & _ & _)].
  - exfalso. rewrite Ht in Htrace. apply app_inv_head in Htrace as <-.
    in_events Hin.
  - exfalso.
    destruct (LoadShadersRun_world _ _ _ _ _ _ Hload) as (_ & _ & loads & Ht2 & Hl).
    rewrite Ht, Ht2, Ht1, <- !app_assoc in Htrace.
    apply app_inv_head in Htrace as <-.
    explode_in Hin; try (by inversion Hin).
    by apply (forallb_elem_of _ _ _ Hl) in Hin.
  - destruct (LoadShadersRun_world _ _ _ _ _ _ Hload)
      as (Hprog & _ & loads & Ht2 & Hl).
    destruct (LoadShadersRun_loaded _ _ _ _ _ Hload) as (Hv & Hf & _ & Hlv & Hlf).
    cbn in Hprog.
    rewrite Ht, Ht2, Ht1, <- !app_assoc in Htrace.
    apply app_inv_head in Htrace as <-.
    assert (p0 = p) as ->.
    { unfold attach_and_link, link_failure, attach_log, link_log in Hin.
      destruct (e1 =? _), (e2 =? _), (1 <? info_len);
        explode_in Hin; try (by inversion Hin);
        by apply (forallb_elem_of _ _ _ Hl) in Hin. }
    rewrite Hs, Hp. repeat split; try done; [|apply lookup_delete_eq].
    exists loads, e1, e2, info_len, log. split; [done|]. split; [done|].
    split; [|split].
    + intros Hlen%Z.ltb_lt. unfold link_failure, link_log. rewrite Hlen.
      split; find_in.
    + intros Hlen n l Hlog.
      assert ((1 <? info_len) = false) as Hlen' by (apply Z.ltb_ge; lia).
      unfold attach_and_link, link_failure, attach_log, link_log in Hlog.
      rewrite Hlen' in Hlog.
      destruct (e1 =? _), (e2 =? _);
        explode_in Hlog; try (by inversion Hlog);
        by apply (forallb_elem_of _ _ _ Hl) in Hlog.
    + intros s Hdel.
      unfold attach_and_link, link_failure, attach_log, link_log in Hdel.
      destruct (e1 =? _), (e2 =? _), (1 <? info_len);
        explode_in Hdel; by inversion Hdel.
  - exfalso.
    destruct (LoadShadersRun_world _ _ _ _ _ _ Hload) as (_ & _ & loads & Ht2 & Hl).
    rewrite Ht, Ht2, Ht1, <- !app_assoc in Htrace.
    apply app_inv_head in Htrace as <-.
    unfold attach_and_link, link_success, attach_log in Hin.
    destruct (e1 =? _), (e2 =? _);
      explode_in Hin; try (by inversion Hin);
      by apply (forallb_elem_of _ _ _ Hl) in Hin.
Qed.

(** C9.  Once the program object has been created and both stages have
    loaded, [gl_init_shader] does not fault and its next calls are:
    attach the vertex stage, read the error flag, log it if it is not
    GL_NO_ERROR; attach the fragment stage, read the error flag, log it
    if it is not GL_NO_ERROR; bind index 0 to [vPosition]; link.  This
    holds for every pair of error flags [e1], [e2]: neither attach error
    ends the run. *)
Theorem C9_attach_errors_are_logged_only shader process_type w p w1 shader1 w2 :
  glCreateProgram drv w = Done p w1 ->
  p ≠ 0 ->
  gl_load_shaders abi drv fs DATA_DIR (set_program p shader) process_type w1
    = Done (0, shader1) w2 ->
  ∃ e1 e2 rest r w',
    gl_init_shader abi drv fs DATA_DIR shader process_type w = Done r w' ∧
    trace w' =
      trace w2
      ++ [ EAttachShader p (vertex_shader shader1); EGetError e1 ]
      ++ (if e1 =? GL_NO_ERROR then []
          else [ ELog LOG_ERROR
                   ("Error while attaching the vertex shader: 0x%04x" +:+ nl)
                   [ArgInt e1] ])
      ++ [ EAttachShader p (fragment_shader shader1); EGetError e2 ]
      ++ (if e2 =? GL_NO_ERROR then []
          else [ ELog LOG_ERROR
                   ("Error while attaching the fragment shader: 0x%04x" +:+ nl)
                   [ArgInt e2] ])
      ++ [ EBindAttribLocation p 0 "vPosition"; ELinkProgram p ]
      ++ rest.
Proof.
  intros Hcreate Hp Hload.
  destruct (gl_init_shader_loaded abi drv fs DATA_DIR shader process_type
              w p w1 0 shader1 w2 Hcreate Hp Hload)
    as ([r sh'] & w' & Hrun & Hinit).
  cbn [fst snd] in Hinit.
  destruct Hinit as [w1' w' Hc _
                    |p' w1' sh1 w2' w' _ _ Hc _ Hl _ _
                    |p' w1' sh1 w2' e1 e2 info_len log w' _ _ Hc _ Hl _ (Ht & _)
                    |p' w1' sh1 w2' e1 e2 po w' _ _ Hc _ Hl _ _ _ (Ht & _)];
    rewrite Hcreate in Hc; injection Hc as Hpeq Hweq; [congruence|..];
    subst p' w1'; rewrite Hload in Hl; [discriminate Hl|..];
    injection Hl as <- <-.
  - exists e1, e2, (link_failure p info_len log), (- EINVAL, shader1), w'.
    split; [done|]. rewrite Ht. unfold attach_and_link, attach_log.
    by rewrite <- !app_assoc.
  - eexists e1, e2, (link_success p _ _), _, w'.
    split; [done|]. rewrite Ht. unfold attach_and_link, attach_log.
    by rewrite <- !app_assoc.
Qed.

End Claims.

(** * The claims on concrete runs *)

Section Witnesses.
Import Scenario.

(** The copy kind with both sources in place, no binaries and a driver
    without the extension: the program links, the position is at 0 and
    the texture coordinate has a location. *)
Example copy_program_from_sources :
  gl_init_shader ILP32 plain_driver source_files data_dir blank SHADER_COPY initial_world
    = Done (0, linked) linked_world ∧
  position_loc linked = 0 ∧ 0 <= texcoord_loc linked.
Proof. split; [vm_compute; reflexivity|]. split; [reflexivity|]. by cbn. Qed.

(** On a driver without the extension the binary attempt gives 0 and the
    vertex stage comes from the source tier. *)
Lemma C1_witness :
  binary_supported plain_driver = false ∧
  ∃ w1 r w2,
    gl_load_binary_shader ILP32 plain_driver source_files vertex_glsh_path
      GL_VERTEX_SHADER
      (add_event (ELog LOG_DEBUG "Load binary shader from %s" [ArgStr vertex_glsh_path])
         initial_world) = Done 0 w1 ∧
    gl_load_source_shader plain_driver source_files vertex_glsl_path GL_VERTEX_SHADER
      (add_event (ELog LOG_DEBUG "Load source shader from %s" [ArgStr vertex_glsl_path])
         (add_event (EGFree (MemStr vertex_glsh_path)) w1)) = Done r w2 ∧
    r = 6 ∧
    gl_load_shader ILP32 plain_driver source_files data_dir VERTEX_SHADER_BASENAME
      GL_VERTEX_SHADER initial_world
      = Done r (add_event (EGFree (MemStr vertex_glsl_path)) w2).
Proof.
  assert (Hext : binary_supported plain_driver = false) by (vm_compute; reflexivity).
  split; [exact Hext|].
  destruct (C1_binary_first_then_source ILP32 plain_driver source_files data_dir
              VERTEX_SHADER_BASENAME GL_VERTEX_SHADER initial_world)
    as [Hrun Hno].
  specialize (Hno Hext). cbv zeta in Hrun.
  change (data_dir +:+ "/" +:+ VERTEX_SHADER_BASENAME +:+ ".glsh")
    with vertex_glsh_path in *.
  change (data_dir +:+ "/" +:+ VERTEX_SHADER_BASENAME +:+ ".glsl")
    with vertex_glsl_path in *.
  rewrite Hno in Hrun. destruct Hrun as (evs & _ & _ & Hsrc).
  specialize (Hsrc eq_refl).
  eexists _, _, _. split; [exact Hno|].
  split; [vm_compute; reflexivity|]. split; [reflexivity|].
  rewrite Hsrc. vm_compute. reflexivity.
Defined.

(** C2, as stated, fails where the vertex source never mentions
    [vPosition]: the call returns 0, which is not a negative code, with a
    position location of -1, which is not a resolved location. *)
Lemma C2_counterexample :
  ∃ ret sh w',
    gl_init_shader ILP32 plain_driver source_files_no_position data_dir blank SHADER_COPY
      initial_world = Done (ret, sh) w' ∧
    ¬ ((ret = 0 ∧ program sh ≠ 0 ∧ vertex_shader sh ≠ 0 ∧ fragment_shader sh ≠ 0 ∧
        0 <= position_loc sh ∧ 0 <= texcoord_loc sh) ∨ ret < 0).
Proof.
  eexists _, _, _. split; [vm_compute; reflexivity|].
  cbn. intros [(_ & _ & _ & _ & Hpos & _)|Hneg]; lia.
Qed.

(** With the sources in place the program is created, both stages load,
    the link status read is 1 and the result is 0. *)
Lemma C2_witness :
  ∃ r w',
    gl_init_shader ILP32 plain_driver source_files data_dir blank SHADER_COPY
      initial_world = Done r w' ∧
    r.1 = 0 ∧ EGetProgramiv 1 GL_LINK_STATUS (Some 1) ∈ trace w'.
Proof.
  destruct (C2_init_result ILP32 plain_driver source_files data_dir blank SHADER_COPY
              initial_world) as (p & w1 & Hcreate & _ & Hloaded).
  revert Hcreate. vm_compute (glCreateProgram _ _). intros [= <- <-].
  specialize (Hloaded ltac:(discriminate)).
  revert Hloaded. vm_compute (gl_load_shaders _ _ _ _ _ _ _).
  intros (_ & _ & Hlinked).
  destruct (Hlinked eq_refl)
    as (_ & _ & _ & r & w' & e1 & e2 & post & Hrun & _ & _ & _ & Hend).
  exists r, w'. split; [exact Hrun|].
  revert Hrun Hend. vm_compute (gl_init_shader _ _ _ _ _ _ _).
  intros [= <- <-] [(_ & _)|(Hr & _)]; [|discriminate Hr].
  split; [reflexivity|]. cbn [trace]. find_in.
Defined.

(** What the amended C2 leaves out: when the fragment stage does not
    compile, the program object and the vertex stage stay alive, with
    their handles in the structure. *)
Example load_failure_keeps_objects :
  ∃ sh w',
    gl_init_shader ILP32 plain_driver source_files data_dir blank SHADER_DEINT_LINEAR
      initial_world = Done (- EINVAL, sh) w' ∧
    program sh = 1 ∧ is_Some (programs w' !! 1) ∧
    vertex_shader sh = 7 ∧ is_Some (shaders w' !! 7) ∧
    fragment_shader sh = 0.
Proof.
  eexists _, _. split; [vm_compute; reflexivity|].
  repeat split; by eexists.
Qed.

(** C3, as stated, fails on the same run: the link succeeds and the
    position location is -1, not 0. *)
Lemma C3_counterexample :
  ∃ sh w' po,
    gl_init_shader ILP32 plain_driver source_files_no_position data_dir blank SHADER_COPY
      initial_world = Done (0, sh) w' ∧
    programs w' !! program sh = Some po ∧ pr_linked po = true ∧
    EGetProgramiv (program sh) GL_LINK_STATUS (Some 1) ∈ trace w' ∧
    position_loc sh = -1 ∧ position_loc sh ≠ 0.
Proof.
  eexists _, _, _. split; [vm_compute; reflexivity|].
  split; [vm_compute; reflexivity|]. split; [reflexivity|].
  split; [cbn; find_in|]. by split.
Qed.

(** With [vPosition] used by the vertex source the theorem gives the
    position at 0. *)
Lemma C3_witness :
  ∃ r w', gl_init_shader ILP32 plain_driver source_files data_dir blank SHADER_COPY
            initial_world = Done r w' ∧
          r.1 = 0 ∧ position_loc r.2 = 0.
Proof.
  pose proof (C3_position_bound_to_0 ILP32 plain_driver source_files data_dir blank
                SHADER_COPY initial_world) as Hpost.
  unfold runs_to in Hpost. revert Hpost.
  vm_compute (gl_init_shader _ _ _ _ _ _ _). intros [_ Hpost].
  eexists _, _. split; [reflexivity|]. split; [reflexivity|].
  destruct (Hpost eq_refl) as (pre & po & _ & Hpo & _ & Hactive & _).
  apply Hactive. revert Hpo. vm_compute. intros [= <-]. find_in.
Defined.

(** On the starved driver nothing gets attached, the link fails, and the
    theorem applies to the run. *)
Lemma C4_witness :
  ∃ r w', gl_init_shader ILP32 starved_driver source_files data_dir blank SHADER_COPY
            initial_world = Done r w' ∧
          EGetProgramiv 1 GL_LINK_STATUS (Some 0) ∈ trace w' ∧
          r.1 = - EINVAL ∧ programs w' !! 1 = None ∧
          is_Some (shaders w' !! vertex_shader r.2) ∧
          is_Some (shaders w' !! fragment_shader r.2).
Proof.
  pose proof (C4_link_failure ILP32 starved_driver source_files data_dir blank
                SHADER_COPY initial_world) as Hpost.
  unfold runs_to in Hpost. revert Hpost.
  vm_compute (gl_init_shader _ _ _ _ _ _ _). intros Hpost.
  eexists _, _. split; [reflexivity|].
  match goal with |- ?e ∈ trace ?w ∧ _ => assert (Hin : e ∈ trace w) end.
  { cbn [trace]. find_in. }
  split; [exact Hin|].
  destruct (Hpost _ 1 eq_refl Hin) as (Hr & _ & _ & _ & Hp & _ & _ & Hv & Hf).
  by repeat split.
Defined.

(** C5, as stated, fails on the program a successful initialisation
    leaves: the vertex stage (7) is released before the fragment stage
    (22), not after it. *)
Lemma C5_counterexample :
  gl_init_shader ILP32 plain_driver source_files data_dir blank SHADER_COPY initial_world
    = Done (0, linked) linked_world ∧
  ∃ sh' w',
    gl_delete_shader linked linked_world = Done sh' w' ∧
    trace w' =
      trace linked_world ++ [ EDeleteShader 7; EDeleteShader 22; EDeleteProgram 1 ] ∧
    trace w' ≠
      trace linked_world ++
      [ EDeleteShader (fragment_shader linked); EDeleteShader (vertex_shader linked);
        EDeleteProgram (program linked) ].
Proof.
  split; [vm_compute; reflexivity|].
  eexists _, _. split; [vm_compute; reflexivity|].
  split; [vm_compute; reflexivity|].
  vm_compute. intros H. discriminate H.
Qed.

(** C6, as stated, fails on a file with a NUL byte after its first 14
    bytes: the file has 22 bytes and the length submitted is 14. *)
Lemma C6_counterexample :
  nul_files vertex_glsl_path = ReadOk nul_glsl ∧
  Z.of_nat (length nul_glsl) = 22 ∧
  ∃ s w',
    gl_load_source_shader plain_driver nul_files vertex_glsl_path GL_VERTEX_SHADER
      initial_world = Done s w' ∧
    EShaderSource s nul_glsl 14 ∈ trace w'.
Proof.
  split; [vm_compute; reflexivity|]. split; [reflexivity|].
  eexists _, _. split; [vm_compute; reflexivity|].
  cbn [trace]. find_in.
Qed.

Lemma C6_witness :
  source_files vertex_glsl_path = ReadOk vertex_glsl ∧
  ∃ s w', gl_load_source_shader plain_driver source_files vertex_glsl_path
            GL_VERTEX_SHADER initial_world = Done s w'.
Proof.
  split; [vm_compute; reflexivity|].
  destruct (C6_source_length_is_strlen plain_driver source_files vertex_glsl_path
              GL_VERTEX_SHADER vertex_glsl initial_world) as (s & w' & Hrun & _);
    [vm_compute; reflexivity|].
  by exists s, w'.
Defined.

Lemma C7_witness :
  g_strstr_len (drv_string plain_driver GL_EXTENSIONS) (-1) "GL_NV_platform_binary"
    = None ∧
  ∃ w', gl_load_binary_shader ILP32 plain_driver binary_files vertex_glsh_path
          GL_VERTEX_SHADER initial_world = Done 0 w' ∧
        shaders w' = shaders initial_world.
Proof.
  split; [vm_compute; reflexivity|].
  destruct (C7_binary_unsupported_returns_0 ILP32 plain_driver binary_files
              vertex_glsh_path GL_VERTEX_SHADER initial_world)
    as (w' & Hrun & _ & Hs & _); [vm_compute; reflexivity|].
  by exists w'.
Defined.

Lemma C8_witness :
  ILP32 = ILP32 ∧
  binary_supported tegra_driver = true ∧
  ∃ s w', gl_load_binary_shader ILP32 tegra_driver binary_files vertex_glsh_path
            GL_VERTEX_SHADER initial_world = Done s w' ∧
          ∃ evs, BinaryRun ILP32 tegra_driver binary_files vertex_glsh_path
                   GL_VERTEX_SHADER s evs.
Proof.
  split; [reflexivity|]. split; [vm_compute; reflexivity|].
  destruct (C8_binary_loader_result ILP32 tegra_driver binary_files vertex_glsh_path
              GL_VERTEX_SHADER initial_world)
    as (s & w' & Hrun & evs & _ & _ & _ & Hbin & _);
    [reflexivity|vm_compute; reflexivity|].
  exists s, w'. split; [exact Hrun|]. by exists evs.
Defined.

(** The same call where a [gsize] has eight bytes: the length of the
    file is stored through [(gsize * )&length] into the four bytes of a
    [GLsizei], and the behaviour from there on is undefined. *)
Example binary_loader_LP64_undefined :
  binary_supported tegra_driver = true ∧
  binary_files vertex_glsh_path = ReadOk [x01; x02; x03; x04] ∧
  gl_load_binary_shader ILP32 tegra_driver binary_files vertex_glsh_path
    GL_VERTEX_SHADER initial_world
    = Done 3 (outcome_world
                (gl_load_binary_shader ILP32 tegra_driver binary_files
                   vertex_glsh_path GL_VERTEX_SHADER initial_world)) ∧
  ∃ wf,
    gl_load_binary_shader LP64 tegra_driver binary_files vertex_glsh_path
      GL_VERTEX_SHADER initial_world = Fault wf ∧
    trace wf =
      [ EGetString GL_EXTENSIONS; EFileNew vertex_glsh_path;
        ECreateShader GL_VERTEX_SHADER 3; EFileLoadContents vertex_glsh_path ] ∧
    is_Some (shaders wf !! 3).
Proof.
  split; [vm_compute; reflexivity|]. split; [vm_compute; reflexivity|].
  split; [vm_compute; reflexivity|].
  eexists. split; [vm_compute; reflexivity|].
  split; [vm_compute; reflexivity|]. by eexists.
Qed.

(** A source file that cannot be read: [err] is read without ever having
    been set, and the behaviour of the source compiler, and of
    [gl_init_shader] with it, is undefined. *)
Example unreadable_source_undefined :
  nul_files (data_dir +:+ "/copy.glsl") = ReadErr "No such file or directory" ∧
  (∃ wf,
     gl_load_source_shader plain_driver nul_files (data_dir +:+ "/copy.glsl")
       GL_FRAGMENT_SHADER initial_world = Fault wf ∧
     trace wf =
       [ ECreateShader GL_FRAGMENT_SHADER 1; EFileNew (data_dir +:+ "/copy.glsl");
         EFileLoadContents (data_dir +:+ "/copy.glsl") ]) ∧
  ∃ wf,
    gl_init_shader ILP32 plain_driver nul_files data_dir blank SHADER_COPY
      initial_world = Fault wf.
Proof.
  split; [vm_compute; reflexivity|]. split.
  - eexists. split; vm_compute; reflexivity.
  - eexists. vm_compute. reflexivity.
Qed.

(** On the starved driver both attach steps leave GL_OUT_OF_MEMORY, and
    the run goes on to bind and link. *)
Lemma C9_witness :
  glCreateProgram starved_driver initial_world = Done 1 starved_created ∧
  gl_load_shaders ILP32 starved_driver source_files data_dir (set_program 1 blank)
    SHADER_COPY starved_created = Done (0, mkShader 1 7 22 0 0) starved_loaded ∧
  ∃ e1 e2 rest r w',
    gl_init_shader ILP32 starved_driver source_files data_dir blank SHADER_COPY
      initial_world = Done r w' ∧
    trace w' =
      trace starved_loaded
      ++ [ EAttachShader 1 7; EGetError e1 ]
      ++ (if e1 =? GL_NO_ERROR then []
          else [ ELog LOG_ERROR
                   ("Error while attaching the vertex shader: 0x%04x" +:+ nl)
                   [ArgInt e1] ])
      ++ [ EAttachShader 1 22; EGetError e2 ]
      ++ (if e2 =? GL_NO_ERROR then []
          else [ ELog LOG_ERROR
                   ("Error while attaching the fragment shader: 0x%04x" +:+ nl)
                   [ArgInt e2] ])
      ++ [ EBindAttribLocation 1 0 "vPosition"; ELinkProgram 1 ]
      ++ rest.
Proof.
  split; [vm_compute; reflexivity|]. split; [vm_compute; reflexivity|].
  apply (C9_attach_errors_are_logged_only ILP32 starved_driver source_files data_dir
           blank SHADER_COPY initial_world 1 starved_created
           (mkShader 1 7 22 0 0) starved_loaded).
  - vm_compute; reflexivity.
  - lia.
  - vm_compute; reflexivity.
Defined.

(** In that run the error flags read after the two attach steps are
    GL_OUT_OF_MEMORY, and the link comes after them. *)
Example starved_run_links_after_attach_errors :
  ∃ r w' rest,
    gl_init_shader ILP32 starved_driver source_files data_dir blank SHADER_COPY
      initial_world = Done r w' ∧
    trace w' =
      trace starved_loaded
      ++ [ EAttachShader 1 7; EGetError GL_OUT_OF_MEMORY;
           ELog LOG_ERROR ("Error while attaching the vertex shader: 0x%04x" +:+ nl)
                [ArgInt GL_OUT_OF_MEMORY];
           EAttachShader 1 22; EGetError GL_OUT_OF_MEMORY;
           ELog LOG_ERROR ("Error while attaching the fragment shader: 0x%04x" +:+ nl)
                [ArgInt GL_OUT_OF_MEMORY];
           EBindAttribLocation 1 0 "vPosition"; ELinkProgram 1 ]
      ++ rest.
Proof.
  eexists _, _, _. split; [vm_compute; reflexivity|].
  vm_compute. reflexivity.
Qed.

End Witnesses.
